(** * ModpackGraphviz: metadata extraction, embedding detection and
      dependency-graph construction of [main.py], embedded in Rocq.

    The program is dynamically typed Python.  Values decoded from JSON and
    TOML manifests are modelled by [pyval]; every operation the source applies
    to such a value ([.get], [.keys()], [.lower()], indexing, iteration,
    truthiness, use as a dictionary key) is a function on [pyval] that raises
    where Python raises.  Exceptions are explicit: a computation returns
    [Ok a] or [Raise e], and [try ... except: pass] is a case distinction on
    that result. *)

From Stdlib Require Import List String Ascii ZArith Bool Arith Permutation.
Import ListNotations.
Open Scope string_scope.
Open Scope list_scope.
Set Warnings "-register-all".

(** ** Values *)

(** Values produced by [json.load] and [tomllib.loads].  Numbers are the
    integers; [float] and the TOML date and time types are outside the model.
    A [str] is a Rocq string, one [ascii] per character.  A [dict] decoded
    from a manifest has string keys and keeps insertion order. *)
Inductive pyval : Type :=
| PNone
| PBool (b : bool)
| PInt (z : Z)
| PStr (s : string)
| PList (l : list pyval)
| PDict (d : list (string * pyval)).

Inductive exn : Type :=
| AttributeError | TypeError | KeyError | IndexError | ValueError | BadZipFile
| FileNotFoundError.

Inductive result (A : Type) : Type :=
| Ok (a : A)
| Raise (e : exn).
Arguments Ok {A} a.
Arguments Raise {A} e.

Definition bind {A B} (c : result A) (k : A -> result B) : result B :=
  match c with
  | Ok a => k a
  | Raise e => Raise e
  end.

Notation "x <- c ;; k" := (bind c (fun x => k))
  (at level 61, c at next level, right associativity).

(** [for x in l: s = body(s, x)], stopping at the first exception. *)
Fixpoint for_each {A S} (l : list A) (s : S) (body : S -> A -> result S)
  : result S :=
  match l with
  | [] => Ok s
  | x :: rest => s' <- body s x ;; for_each rest s' body
  end.

(** Python truthiness ([if v], [not v], [a or b], [a and b]). *)
Definition truthy (v : pyval) : bool :=
  match v with
  | PNone => false
  | PBool b => b
  | PInt z => negb (z =? 0)%Z
  | PStr s => negb (s =? "")
  | PList l => match l with [] => false | _ => true end
  | PDict d => match d with [] => false | _ => true end
  end.

Definition py_or (a b : pyval) : pyval := if truthy a then a else b.

(** Lists and dicts are unhashable: using one as a key raises [TypeError]. *)
Definition hashable (v : pyval) : bool :=
  match v with
  | PList _ | PDict _ => false
  | _ => true
  end.

Definition num_of (v : pyval) : option Z :=
  match v with
  | PBool b => Some (if b then 1 else 0)%Z
  | PInt z => Some z
  | _ => None
  end.

(** [a == b] on hashable values: [True == 1] and [False == 0] hold, a string
    is equal only to the same string, [None] only to [None]. *)
Definition key_eqb (a b : pyval) : bool :=
  match a, b with
  | PNone, PNone => true
  | PStr s, PStr t => (s =? t)
  | _, _ =>
      match num_of a, num_of b with
      | Some x, Some y => (x =? y)%Z
      | _, _ => false
      end
  end.

(** ** Dictionaries built by the program

    Insertion-ordered association lists with keys unique up to [key_eqb].
    [d[k] = v] replaces the value of an existing key in place (the stored key
    object is kept) and appends a new key at the end. *)
Definition dict (V : Type) : Type := list (pyval * V).

Fixpoint dict_get {V} (d : dict V) (k : pyval) : option V :=
  match d with
  | [] => None
  | (k', v) :: rest => if key_eqb k' k then Some v else dict_get rest k
  end.

Fixpoint dict_set {V} (d : dict V) (k : pyval) (v : V) : dict V :=
  match d with
  | [] => [(k, v)]
  | (k', v') :: rest =>
      if key_eqb k' k then (k', v) :: rest else (k', v') :: dict_set rest k v
  end.

Definition setitem {V} (d : dict V) (k : pyval) (v : V) : result (dict V) :=
  if hashable k then Ok (dict_set d k v) else Raise TypeError.

Definition keys {V} (d : dict V) : list pyval := map fst d.
Definition values {V} (d : dict V) : list V := map snd d.

(** [k in s] for a set or the keys of a dict, held as a list. *)
Definition py_in (k : pyval) (s : list pyval) : bool :=
  existsb (fun k' => key_eqb k' k) s.

(** [s.add(k)]. *)
Definition set_add (s : list pyval) (k : pyval) : list pyval :=
  if py_in k s then s else s ++ [k].

(** ** Operations on decoded values *)

Fixpoint assoc (k : string) (d : list (string * pyval)) : option pyval :=
  match d with
  | [] => None
  | (k', v) :: rest => if (k' =? k) then Some v else assoc k rest
  end.

(** [v.get(k, default)]: only a dict has [.get]; the key is hashed. *)
Definition py_get (v k default : pyval) : result pyval :=
  match v with
  | PDict d =>
      if hashable k then
        match k with
        | PStr s => Ok (match assoc s d with Some x => x | None => default end)
        | _ => Ok default
        end
      else Raise TypeError
  | _ => Raise AttributeError
  end.

(** [v.keys()]. *)
Definition py_keys (v : pyval) : result (list pyval) :=
  match v with
  | PDict d => Ok (map (fun kv => PStr (fst kv)) d)
  | _ => Raise AttributeError
  end.

Definition chars (s : string) : list pyval :=
  map (fun c => PStr (String c "")) (list_ascii_of_string s).

(** [for x in v]: a list yields its elements, a string its characters, a
    dict its keys; anything else is not iterable. *)
Definition py_iter (v : pyval) : result (list pyval) :=
  match v with
  | PList l => Ok l
  | PStr s => Ok (chars s)
  | PDict d => Ok (map (fun kv => PStr (fst kv)) d)
  | _ => Raise TypeError
  end.

(** [v[0]]. *)
Definition py_index0 (v : pyval) : result pyval :=
  match v with
  | PList (x :: _) => Ok x
  | PList [] => Raise IndexError
  | PStr (String c _) => Ok (PStr (String c ""))
  | PStr EmptyString => Raise IndexError
  | PDict _ => Raise KeyError
  | _ => Raise TypeError
  end.

(** ** Strings *)

Definition lower_ascii (c : ascii) : ascii :=
  let n := nat_of_ascii c in
  if ((65 <=? n) && (n <=? 90))%nat then ascii_of_nat (n + 32) else c.

(** [s.lower()], on the ASCII letters. *)
Fixpoint lower (s : string) : string :=
  match s with
  | EmptyString => EmptyString
  | String c rest => String (lower_ascii c) (lower rest)
  end.

(** [v.lower()]: only a string has it. *)
Definition py_lower (v : pyval) : result string :=
  match v with
  | PStr s => Ok (lower s)
  | _ => Raise AttributeError
  end.

Definition startswith (s pre : string) : bool := String.prefix pre s.

Fixpoint rev_string (s acc : string) : string :=
  match s with
  | EmptyString => acc
  | String c rest => rev_string rest (String c acc)
  end.

Definition endswith (s suf : string) : bool :=
  String.prefix (rev_string suf "") (rev_string s "").

(** [sub in s] on strings. *)
Fixpoint contains (sub s : string) : bool :=
  String.prefix sub s
  || match s with
     | EmptyString => false
     | String _ rest => contains sub rest
     end.

Definition str_in (s : string) (l : list string) : bool :=
  existsb (fun x => (x =? s)) l.

(** ** Archives and files

    The program looks at file contents only through three library decoders:
    [json.load], [tomllib.loads] (after UTF-8 decoding) and
    [zipfile.ZipFile].  A byte string is represented by what each of them
    returns on it; [None] stands for the decoder raising.  An opened archive
    is its member list, in directory order; a member whose content is [None]
    cannot be read (reading it raises). *)
Inductive blob : Type :=
| Blob (json : option pyval) (toml : option pyval)
       (zip : option (list (string * option blob))).

Definition zipfile : Type := list (string * option blob).

Definition as_json (b : blob) : option pyval :=
  match b with Blob j _ _ => j end.
Definition as_toml (b : blob) : option pyval :=
  match b with Blob _ t _ => t end.
Definition as_zip (b : blob) : option zipfile :=
  match b with Blob _ _ z => z end.

Definition namelist (jar : zipfile) : list string := map fst jar.

(** [ZipFile.getinfo]: the last member recorded under a name. *)
Fixpoint getinfo (name : string) (jar : zipfile) : option (option blob) :=
  match jar with
  | [] => None
  | (n, c) :: rest =>
      match getinfo name rest with
      | Some x => Some x
      | None => if (n =? name) then Some c else None
      end
  end.

(** [jar.open(name)] followed by reading it, and [jar.read(name)]. *)
Definition zip_read (jar : zipfile) (name : string) : result blob :=
  match getinfo name jar with
  | None => Raise KeyError
  | Some None => Raise BadZipFile
  | Some (Some b) => Ok b
  end.

Definition json_load (b : blob) : result pyval :=
  match as_json b with Some v => Ok v | None => Raise ValueError end.

Definition toml_loads (b : blob) : result pyval :=
  match as_toml b with Some v => Ok v | None => Raise ValueError end.

(** [zipfile.ZipFile(io.BytesIO(raw_bytes))]. *)
Definition ZipFile_bytes (raw : blob) : result zipfile :=
  match as_zip raw with Some jar => Ok jar | None => Raise BadZipFile end.

(** The files on disk, by path; [zipfile.ZipFile(jar_path)] reads the file
    at the path and opens its bytes. *)
Definition filesystem : Type := string -> option blob.

Definition ZipFile_path (fs : filesystem) (jar_path : string)
  : result zipfile :=
  match fs jar_path with
  | None => Raise FileNotFoundError
  | Some raw => ZipFile_bytes raw
  end.

(** ** Descriptors *)

Record meta : Type := { required : pyval }.

(** The dict [{"id", "name", "depends", "_path"}]; [_path = None] is a
    descriptor without the ["_path"] key. *)
Record descriptor : Type := {
  id : pyval;
  name : pyval;
  depends : dict meta;
  _path : option string
}.

(** How a block of statements ends: by [return a], or by running to its
    end so that the statements after it execute. *)
Inductive flow (A : Type) : Type :=
| Return (a : A)
| Next.
Arguments Return {A} a.
Arguments Next {A}.

(** [try: body / except: pass]. *)
Definition try_pass {A} (body : result (flow A)) : flow A :=
  match body with
  | Ok f => f
  | Raise _ => Next
  end.

(** [for dep in ks: depends[dep] = {"required": r}]. *)
Definition add_all (depends : dict meta) (ks : list pyval) (r : bool)
  : result (dict meta) :=
  for_each ks depends
    (fun dps dep => setitem dps dep {| required := PBool r |}).

(** Body of [for dep in depArr]: [depends[dep.get("modId")] =
    {"required": dep.get("mandatory", False)}]. *)
Definition add_dep (depends : dict meta) (dep : pyval)
  : result (dict meta) :=
  dep_id <- py_get dep (PStr "modId") PNone ;;
  required <- py_get dep (PStr "mandatory") (PBool false) ;;
  setitem depends dep_id {| required := required |}.

(** ** [should_ignore] *)

Definition IGNORED_MODS : list string :=
  [ "minecraft"; "forge"; "neoforge"; "fabricloader"; "fabric-loader";
    "fabric"; "fabric-api"; "fabric_api"; "fabric-resource-loader-v0";
    "fabric-screen-api-v1"; "fabric-networking-api-v1";
    "fabric-lifecycle-events-v1"; "fabric-renderer-api-v1";
    "fabric-registry-sync-v0"; "fabric-api-base";
    "fabric-events-interaction-v0"; "fabric-permissions-api-v0";
    "fabric-command-api-v2"; "fabric-kotlin"; "java" ].

(** [modid and modid.lower() in IGNORED_MODS]: a falsy [modid] is returned
    as it is; otherwise [.lower()] is called on it. *)
Definition should_ignore (modid : pyval) : result pyval :=
  if truthy modid then
    s <- py_lower modid ;;
    Ok (PBool (str_in s IGNORED_MODS))
  else Ok modid.

(** ** [extract_metadata_from_bytes] (nested archives) *)

(** Body of the [try] of the Fabric block. *)
Definition fabric_from_bytes (jar : zipfile)
  : result (flow (option descriptor)) :=
  f <- zip_read jar "fabric.mod.json" ;;
  data <- json_load f ;;
  mod_id <- py_get data (PStr "id") PNone ;;
  nm <- py_get data (PStr "name") PNone ;;
  let name := py_or nm mod_id in
  let depends := [] in
  c <- py_get data (PStr "depends") (PDict []) ;;
  ks <- py_keys c ;;
  depends <- add_all depends ks true ;;
  c <- py_get data (PStr "recommends") (PDict []) ;;
  ks <- py_keys c ;;
  depends <- add_all depends ks false ;;
  c <- py_get data (PStr "suggests") (PDict []) ;;
  ks <- py_keys c ;;
  depends <- add_all depends ks false ;;
  Ok (Return (Some {| id := mod_id; name := name; depends := depends;
                      _path := None |})).

(** Body of the [try] of the modern Forge block. *)
Definition forge_from_bytes (jar : zipfile)
  : result (flow (option descriptor)) :=
  f <- zip_read jar "META-INF/mods.toml" ;;
  data <- toml_loads f ;;
  mod_entry <- py_get data (PStr "mods") (PList []) ;;
  if negb (truthy mod_entry) then Ok (Return None) else
  e <- py_index0 mod_entry ;;
  mod_id <- py_get e (PStr "modId") PNone ;;
  e <- py_index0 mod_entry ;;
  nm <- py_get e (PStr "displayName") PNone ;;
  let name := py_or nm mod_id in
  let depends := [] in
  deps <- py_get data (PStr "dependencies") (PDict []) ;;
  depArr <- py_get deps mod_id (PList []) ;;
  items <- py_iter depArr ;;
  depends <- for_each items depends add_dep ;;
  Ok (Return (Some {| id := mod_id; name := name; depends := depends;
                      _path := None |})).

(** Body of the [try] of the old Forge ([mcmod.info]) block. *)
Definition mcmod_from_bytes (jar : zipfile)
  : result (flow (option descriptor)) :=
  f <- zip_read jar "mcmod.info" ;;
  data <- json_load f ;;
  match data with
  | PList (entry :: _) =>
      mod_id <- py_get entry (PStr "modid") PNone ;;
      nm <- py_get entry (PStr "name") PNone ;;
      let name := py_or nm mod_id in
      let depends := [] in
      l <- py_get entry (PStr "dependencies") (PList []) ;;
      ds <- py_iter l ;;
      depends <- add_all depends ds true ;;
      l <- py_get entry (PStr "requiredMods") (PList []) ;;
      ds <- py_iter l ;;
      depends <- add_all depends ds true ;;
      Ok (Return (Some {| id := mod_id; name := name; depends := depends;
                          _path := None |}))
  | _ => Ok Next
  end.

Definition extract_metadata_from_bytes (raw_bytes : blob)
  : option descriptor :=
  match ZipFile_bytes raw_bytes with
  | Raise _ => None
  | Ok jar =>
      match (if str_in "fabric.mod.json" (namelist jar)
             then try_pass (fabric_from_bytes jar) else Next) with
      | Return r => r
      | Next =>
      match (if str_in "META-INF/mods.toml" (namelist jar)
             then try_pass (forge_from_bytes jar) else Next) with
      | Return r => r
      | Next =>
      match (if str_in "mcmod.info" (namelist jar)
             then try_pass (mcmod_from_bytes jar) else Next) with
      | Return r => r
      | Next => None
      end end end
  end.

(** ** [extract_mod_metadata] (archives of the folder) *)

(** Body of the [try] of the FABRIC block. *)
Definition fabric_block (jar : zipfile) (jar_path : string)
  : result (flow (option descriptor)) :=
  f <- zip_read jar "fabric.mod.json" ;;
  data <- json_load f ;;
  mod_id <- py_get data (PStr "id") PNone ;;
  nm <- py_get data (PStr "name") PNone ;;
  let name := py_or nm mod_id in
  let depends := [] in
  c <- py_get data (PStr "depends") (PDict []) ;;
  ks <- py_keys c ;;
  depends <- add_all depends ks true ;;
  c <- py_get data (PStr "recommends") (PDict []) ;;
  ks <- py_keys c ;;
  depends <- add_all depends ks false ;;
  c <- py_get data (PStr "suggests") (PDict []) ;;
  ks <- py_keys c ;;
  depends <- add_all depends ks false ;;
  Ok (Return (Some {| id := mod_id; name := name; depends := depends;
                      _path := Some jar_path |})).

(** Body of the [try] of the FORGE (modern) block. *)
Definition forge_block (jar : zipfile) (jar_path : string)
  : result (flow (option descriptor)) :=
  f <- zip_read jar "META-INF/mods.toml" ;;
  data <- toml_loads f ;;
  mod_entry <- py_get data (PStr "mods") (PList []) ;;
  if negb (truthy mod_entry) then Ok (Return None) else
  e <- py_index0 mod_entry ;;
  mod_id <- py_get e (PStr "modId") PNone ;;
  e <- py_index0 mod_entry ;;
  nm <- py_get e (PStr "displayName") PNone ;;
  let name := py_or nm mod_id in
  let depends := [] in
  deps <- py_get data (PStr "dependencies") (PDict []) ;;
  depArr <- py_get deps mod_id (PList []) ;;
  items <- py_iter depArr ;;
  depends <- for_each items depends add_dep ;;
  Ok (Return (Some {| id := mod_id; name := name; depends := depends;
                      _path := Some jar_path |})).

(** Body of the [try] of the FORGE old block. *)
Definition mcmod_block (jar : zipfile) (jar_path : string)
  : result (flow (option descriptor)) :=
  f <- zip_read jar "mcmod.info" ;;
  data <- json_load f ;;
  match data with
  | PList (entry :: _) =>
      mod_id <- py_get entry (PStr "modid") PNone ;;
      nm <- py_get entry (PStr "name") PNone ;;
      let name := py_or nm mod_id in
      let depends := [] in
      l <- py_get entry (PStr "dependencies") (PList []) ;;
      ds <- py_iter l ;;
      depends <- add_all depends ds true ;;
      l <- py_get entry (PStr "requiredMods") (PList []) ;;
      ds <- py_iter l ;;
      depends <- add_all depends ds true ;;
      Ok (Return (Some {| id := mod_id; name := name; depends := depends;
                          _path := Some jar_path |}))
  | _ => Ok Next
  end.

Definition extract_mod_metadata (fs : filesystem) (jar_path : string)
  : option descriptor :=
  match ZipFile_path fs jar_path with
  | Raise _ => None
  | Ok jar =>
      match (if str_in "fabric.mod.json" (namelist jar)
             then try_pass (fabric_block jar jar_path) else Next) with
      | Return r => r
      | Next =>
      match (if str_in "META-INF/mods.toml" (namelist jar)
             then try_pass (forge_block jar jar_path) else Next) with
      | Return r => r
      | Next =>
      match (if str_in "mcmod.info" (namelist jar)
             then try_pass (mcmod_block jar jar_path) else Next) with
      | Return r => r
      | Next => None
      end end end
  end.

(** ** [is_dependency_embedded] *)

(** A loop whose body may [return]: the first iteration that returns ends
    the loop. *)
Fixpoint first_return {A B} (l : list A) (body : A -> flow B) : flow B :=
  match l with
  | [] => Next
  | x :: rest =>
      match body x with
      | Return b => Return b
      | Next => first_return rest body
      end
  end.

(** The same loop inside a [try]: an exception in an iteration leaves it. *)
Fixpoint first_return_try {A B} (l : list A) (body : A -> result (flow B))
  : result (flow B) :=
  match l with
  | [] => Ok Next
  | x :: rest =>
      r <- body x ;;
      match r with
      | Return b => Ok (Return b)
      | Next => first_return_try rest body
      end
  end.

(** Body of the [try] for one nested [.jar] member. *)
Definition nested_probe (jar : zipfile) (dep name : string)
  : result (flow bool) :=
  raw <- zip_read jar name ;;
  let meta := extract_metadata_from_bytes raw in
  match meta with
  | Some m =>
      if truthy (id m) then
        s <- py_lower (id m) ;;
        if (s =? dep) then Ok (Return true) else Ok Next
      else Ok Next
  | None => Ok Next
  end.

(** Body of the [try] that reads the ["jars"] list of [fabric.mod.json]. *)
Definition jars_probe (jar : zipfile) (dep : string) : result (flow bool) :=
  f <- zip_read jar "fabric.mod.json" ;;
  data <- json_load f ;;
  js <- py_get data (PStr "jars") (PList []) ;;
  entries <- py_iter js ;;
  first_return_try entries
    (fun entry =>
       i <- py_get entry (PStr "id") (PStr "") ;;
       s <- py_lower i ;;
       if contains dep s then Ok (Return true) else Ok Next).

Definition is_dependency_embedded (fs : filesystem) (jar_path : string)
  (dep_id : pyval) : result bool :=
  dep <- py_lower dep_id ;;
  match ZipFile_path fs jar_path with
  | Raise _ => Ok false
  | Ok jar =>
      let paths := namelist jar in
      let embedded_prefixes := ["META-INF/jars/"; "META-INF/jarjar/"] in
      match first_return embedded_prefixes (fun prefix =>
              first_return paths (fun name =>
                if startswith name prefix && endswith name ".jar"
                then try_pass (nested_probe jar dep name) else Next)) with
      | Return b => Ok b
      | Next =>
      let namespace_paths := [("assets/" ++ dep ++ "/")%string; ("data/" ++ dep ++ "/")%string] in
      match first_return namespace_paths (fun ns =>
              if existsb (fun p => startswith p ns) paths
              then Return true else Next) with
      | Return b => Ok b
      | Next =>
      let likely_prefixes :=
        [(dep ++ "/")%string; ("com/" ++ dep ++ "/")%string;
         ("net/" ++ dep ++ "/")%string; ("io/" ++ dep ++ "/")%string] in
      match first_return paths (fun name =>
              let n := lower name in
              if existsb (fun pref => startswith n pref) likely_prefixes
              then if endswith n ".class" then Return true else Next
              else Next) with
      | Return b => Ok b
      | Next =>
      match (if str_in "fabric.mod.json" paths
             then try_pass (jars_probe jar dep) else Next) with
      | Return b => Ok b
      | Next => Ok false
      end end end end
  end.

(** ** [scan_mod_folder] *)

(** The dict comprehension that drops the ignored dependencies. *)
Definition filter_depends (deps : dict meta) : result (dict meta) :=
  for_each (keys deps) []
    (fun acc d =>
       ig <- should_ignore d ;;
       if negb (truthy ig) then
         match dict_get deps d with
         | Some m => setitem acc d m
         | None => Raise KeyError
         end
       else Ok acc).

(** One iteration of the loop over the [*.jar] files. *)
Definition scan_step (fs : filesystem) (mods : dict descriptor)
  (jar : string) : result (dict descriptor) :=
  match extract_mod_metadata fs jar with
  | None => Ok mods
  | Some info =>
      if truthy (id info) then
        ig <- should_ignore (id info) ;;
        if negb (truthy ig) then
          deps <- filter_depends (depends info) ;;
          let info := {| id := id info; name := name info; depends := deps;
                         _path := _path info |} in
          setitem mods (id info) info
        else Ok mods
      else Ok mods
  end.

(** [jars] is what [folder.glob("*.jar")] yields, in its order. *)
Definition scan_mod_folder (fs : filesystem) (jars : list string)
  : result (dict descriptor) :=
  for_each jars [] (scan_step fs).

(** ** [export_to_dot] *)

Inductive status : Type := satisfied | missing_required | missing_optional.

(** The lines appended to [out], one constructor per f-string of the
    source; the rendering of a line as text is not modelled. *)
Inductive line : Type :=
| Fixed (text : string)
| ModNode (mod_id name : pyval)
| Edge (mod_id dep : pyval) (st : status)
| Placeholder (dep : pyval) (kind : status).

Fixpoint insert_by {A} (le : A -> A -> bool) (x : A) (l : list A) : list A :=
  match l with
  | [] => [x]
  | y :: rest => if le x y then x :: l else y :: insert_by le x rest
  end.

Definition sort_by {A} (le : A -> A -> bool) (l : list A) : list A :=
  fold_right (insert_by le) [] l.

Definition is_str (v : pyval) : bool :=
  match v with PStr _ => true | _ => false end.
Definition is_num (v : pyval) : bool :=
  match num_of v with Some _ => true | None => false end.

Definition str_le (a b : pyval) : bool :=
  match a, b with
  | PStr s, PStr t => String.leb s t
  | _, _ => true
  end.
Definition num_le (a b : pyval) : bool :=
  match num_of a, num_of b with
  | Some x, Some y => (x <=? y)%Z
  | _, _ => true
  end.

(** [sorted(s)] of a set: strings compare with strings and numbers with
    numbers; any other comparison raises [TypeError]. *)
Definition py_sorted (s : list pyval) : result (list pyval) :=
  if (List.length s <=? 1)%nat then Ok s
  else if forallb is_str s then Ok (sort_by str_le s)
  else if forallb is_num s then Ok (sort_by num_le s)
  else Raise TypeError.

Record dot_state : Type := {
  missing_required_set : list pyval;
  missing_optional_set : list pyval;
  out : list line
}.

(** [embedded_mod["_path"]]. *)
Definition get_path (m : descriptor) : result string :=
  match _path m with Some p => Ok p | None => Raise KeyError end.

(** The loop over [mods.values()] that ends at the first archive in which
    the dependency is embedded; the result is whether it was found. *)
Fixpoint any_embedded (fs : filesystem) (ms : list descriptor) (dep : pyval)
  : result bool :=
  match ms with
  | [] => Ok false
  | embedded_mod :: rest =>
      p <- get_path embedded_mod ;;
      b <- is_dependency_embedded fs p dep ;;
      if b then Ok true else any_embedded fs rest dep
  end.

(** Body of the inner loop over [data["depends"].items()]. *)
Definition edge_step (fs : filesystem) (mods : dict descriptor)
  (mod_id : pyval) (st : dot_state) (item : pyval * meta)
  : result dot_state :=
  let (dep, m) := item in
  let required := required m in
  let installed := keys mods in
  let dep_missing := negb (py_in dep installed) in
  dep_missing <-
    (if dep_missing then
       found <- any_embedded fs (values mods) dep ;;
       Ok (negb found)
     else Ok false) ;;
  if negb dep_missing then
    Ok {| missing_required_set := missing_required_set st;
          missing_optional_set := missing_optional_set st;
          out := out st ++ [Edge mod_id dep satisfied] |}
  else if truthy required then
    Ok {| missing_required_set := set_add (missing_required_set st) dep;
          missing_optional_set := missing_optional_set st;
          out := out st ++ [Edge mod_id dep missing_required] |}
  else
    Ok {| missing_required_set := missing_required_set st;
          missing_optional_set := set_add (missing_optional_set st) dep;
          out := out st ++ [Edge mod_id dep missing_optional] |}.

Definition dq : string := String (ascii_of_nat 34) "".

Definition header : list line :=
  [ Fixed "digraph mods {";
    Fixed ("    rankdir=" ++ dq ++ "LR" ++ dq ++ ";")%string;
    Fixed ("    node [shape=box, style=filled, fillcolor=" ++ dq ++ "white"
           ++ dq ++ "];")%string ].

(** The list [out] whose lines are joined and written to the output file. *)
Definition export_to_dot (fs : filesystem) (mods : dict descriptor)
  : result (list line) :=
  let st := {| missing_required_set := []; missing_optional_set := [];
               out := header
                      ++ map (fun kd => ModNode (fst kd) (name (snd kd))) mods
            |} in
  st <- for_each mods st
          (fun st kd => for_each (depends (snd kd)) st
                          (edge_step fs mods (fst kd))) ;;
  req <- py_sorted (missing_required_set st) ;;
  opt <- py_sorted (missing_optional_set st) ;;
  Ok (out st
      ++ map (fun dep => Placeholder dep missing_required) req
      ++ map (fun dep => Placeholder dep missing_optional) opt
      ++ [Fixed "}"]).

(** ** Statements in the words of the specification *)






(** A dependency identifier matches the exclusion set when it is a string
    whose lower-case form is one of [IGNORED_MODS]. *)
Definition excluded (v : pyval) : bool :=
  match v with
  | PStr s => str_in (lower s) IGNORED_MODS
  | _ => false
  end.

(** A descriptor without its source location. *)
Definition without_path (d : descriptor) : descriptor :=
  {| id := id d; name := name d; depends := depends d; _path := None |}.

(** A descriptor tagged with its source location. *)
Definition with_path (p : string) (d : descriptor) : descriptor :=
  {| id := id d; name := name d; depends := depends d; _path := Some p |}.

Definition tag (p : string) (r : result (flow (option descriptor)))
  : result (flow (option descriptor)) :=
  match r with
  | Ok (Return (Some d)) => Ok (Return (Some (with_path p d)))
  | other => other
  end.

(** The three metadata schemas, in detection order. *)
Inductive schema : Type := SchemaA | SchemaB | SchemaC.

Definition manifest_path (s : schema) : string :=
  match s with
  | SchemaA => "fabric.mod.json"
  | SchemaB => "META-INF/mods.toml"
  | SchemaC => "mcmod.info"
  end.

(** The [try] body of [extract_mod_metadata] that handles a schema. *)
Definition block (s : schema)
  : zipfile -> string -> result (flow (option descriptor)) :=
  match s with
  | SchemaA => fabric_block
  | SchemaB => forge_block
  | SchemaC => mcmod_block
  end.

(** The decoded manifest of a schema, when the archive has a readable one
    that decodes. *)
Definition manifest (s : schema) (jar : zipfile) : option pyval :=
  match zip_read jar (manifest_path s) with
  | Ok f => match s with SchemaB => as_toml f | _ => as_json f end
  | Raise _ => None
  end.








(** *** The four heuristics of the Embedding Detector

    Each is a boolean: a member that cannot be read, a nested archive from
    which no metadata is extracted and a malformed manifest make their own
    check false. *)

(** The nested archive [name] can be read, metadata is extracted from its
    bytes, and its identifier is a non-empty string equal to [dep] in lower
    case. *)
Definition nested_match (jar : zipfile) (dep name : string) : bool :=
  match zip_read jar name with
  | Ok raw =>
      match extract_metadata_from_bytes raw with
      | Some m =>
          match id m with
          | PStr t => negb (t =? "") && (lower t =? dep)
          | _ => false
          end
      | None => false
      end
  | Raise _ => false
  end.

Definition nested_hit (jar : zipfile) (dep : string) : bool :=
  existsb (fun prefix =>
             existsb (fun name =>
                        startswith name prefix && endswith name ".jar"
                        && nested_match jar dep name)
                     (namelist jar))
          ["META-INF/jars/"; "META-INF/jarjar/"].

Definition namespace_hit (jar : zipfile) (dep : string) : bool :=
  existsb (fun ns => existsb (fun p => startswith p ns) (namelist jar))
          [("assets/" ++ dep ++ "/")%string; ("data/" ++ dep ++ "/")%string].

Definition class_hit (jar : zipfile) (dep : string) : bool :=
  existsb (fun name =>
             existsb (fun pref => startswith (lower name) pref)
                     [(dep ++ "/")%string; ("com/" ++ dep ++ "/")%string;
                      ("net/" ++ dep ++ "/")%string;
                      ("io/" ++ dep ++ "/")%string]
             && endswith (lower name) ".class")
          (namelist jar).

(** The declared bundled archives, examined in order: an entry whose
    identifier contains [dep] matches; an entry that is not a table, or
    whose identifier is not a string, ends the examination. *)
Fixpoint jars_listed (entries : list pyval) (dep : string) : bool :=
  match entries with
  | PDict e :: rest =>
      match (match assoc "id" e with Some v => v | None => PStr "" end) with
      | PStr t => contains dep (lower t) || jars_listed rest dep
      | _ => false
      end
  | _ => false
  end.

Definition jars_hit (jar : zipfile) (dep : string) : bool :=
  str_in "fabric.mod.json" (namelist jar)
  && match manifest SchemaA jar with
     | Some (PDict data) =>
         match assoc "jars" data with
         | Some (PList entries) => jars_listed entries dep
         | _ => false
         end
     | _ => false
     end.

Definition hit (f : flow bool) : bool :=
  match f with Return b => b | Next => false end.

(** What the loop of [scan_mod_folder] maintains for every entry of
    [mods]. *)
Definition registered (kd : pyval * descriptor) : Prop :=
  (exists s, fst kd = PStr s /\ s <> "")
  /\ excluded (fst kd) = false
  /\ id (snd kd) = fst kd
  /\ (forall dep, In dep (keys (depends (snd kd))) -> excluded dep = false).

(** *** Edges of the graph *)

(** Probing one registered mod's source archive for [dep] returned true. *)
Definition probe_succeeds (fs : filesystem) (dep : pyval) (m : descriptor)
  : bool :=
  match _path m with
  | Some p =>
      match is_dependency_embedded fs p dep with
      | Ok true => true
      | _ => false
      end
  | None => false
  end.

(** The status of a [(dependency, meta)] pair: satisfied when the
    dependency is a key of the registry or some probe succeeds, otherwise
    missing, required or optional after the pair's flag. *)
Definition edge_status (fs : filesystem) (mods : dict descriptor)
  (item : pyval * meta) : status :=
  if py_in (fst item) (keys mods)
     || existsb (probe_succeeds fs (fst item)) (values mods)
  then satisfied
  else if truthy (required (snd item)) then missing_required
       else missing_optional.

Definition is_edge (l : line) : bool :=
  match l with Edge _ _ _ => true | _ => false end.

(** The edge lines of the output, in order. *)
Definition edges (out : list line) : list line := filter is_edge out.

Definition expected_edges (fs : filesystem) (mods : dict descriptor)
  : list line :=
  flat_map (fun kd =>
              map (fun item =>
                     Edge (fst kd) (fst item) (edge_status fs mods item))
                  (depends (snd kd)))
           mods.

Definition status_eqb (a b : status) : bool :=
  match a, b with
  | satisfied, satisfied => true
  | missing_required, missing_required => true
  | missing_optional, missing_optional => true
  | _, _ => false
  end.

(** The identifiers that have a placeholder declaration of a kind, one per
    declaration, in output order. *)
Fixpoint placeholders (kind : status) (out : list line) : list pyval :=
  match out with
  | [] => []
  | Placeholder dep k :: rest =>
      if status_eqb k kind then dep :: placeholders kind rest
      else placeholders kind rest
  | _ :: rest => placeholders kind rest
  end.

(** What the edge loop of [export_to_dot] maintains: the two sets hold
    strings without repetition, each holds exactly the targets of the edges
    of its kind, and no placeholder has been emitted yet. *)
Definition sets_ok (st : dot_state) : Prop :=
  NoDup (missing_required_set st)
  /\ NoDup (missing_optional_set st)
  /\ (forall dep, In dep (missing_required_set st) <->
                  exists mod_id, In (Edge mod_id dep missing_required) (out st))
  /\ (forall dep, In dep (missing_optional_set st) <->
                  exists mod_id, In (Edge mod_id dep missing_optional) (out st))
  /\ (forall dep, In dep (missing_required_set st) -> is_str dep = true)
  /\ (forall dep, In dep (missing_optional_set st) -> is_str dep = true)
  /\ (forall kind, placeholders kind (out st) = []).

(** The archive without the members called [name]. *)
Definition remove_member (name : string) (jar : zipfile) : zipfile :=
  filter (fun e => negb (fst e =? name)) jar.

(** The disk with the file at [p] replaced by the archive [jar]. *)
Definition replace_archive (fs : filesystem) (p : string) (jar : zipfile)
  : filesystem :=
  fun q => if (q =? p) then Some (Blob None None (Some jar)) else fs q.

(** ** Sample archives *)

Definition json_file (v : pyval) : blob := Blob (Some v) None None.
Definition toml_file (v : pyval) : blob := Blob None (Some v) None.
Definition jar_file (members : list (string * option blob)) : blob :=
  Blob None None (Some members).
Definition not_decodable : blob := Blob None None None.

(** A disk holding the listed files. *)
Definition disk (files : list (string * blob)) : filesystem :=
  fun p =>
    match find (fun e => (fst e =? p)) files with
    | Some e => Some (snd e)
    | None => None
    end.

(** [a.jar]: Schema A, id [a], hard dependencies [x] and [Fabric]. *)
Definition manifest_a : list (string * pyval) :=
  [("id", PStr "a");
   ("depends", PDict [("x", PStr "*"); ("Fabric", PStr "*")])].
Definition sample_a : blob :=
  jar_file [("fabric.mod.json", Some (json_file (PDict manifest_a)))].

(** [b.jar]: Schema A, id [b], an empty name, suggests [x]. *)
Definition manifest_b : list (string * pyval) :=
  [("id", PStr "b"); ("name", PStr "");
   ("suggests", PDict [("x", PStr "*")])].
Definition sample_b : blob :=
  jar_file [("fabric.mod.json", Some (json_file (PDict manifest_b)))].


(** [k.jar]: a Schema A manifest that is not JSON, next to a valid Schema C
    manifest. *)
Definition manifest_legacy : list (string * pyval) :=
  [("modid", PStr "legacy"); ("name", PNone);
   ("dependencies", PList [PStr "x"])].
Definition members_k : zipfile :=
  [("fabric.mod.json", Some not_decodable);
   ("mcmod.info", Some (json_file (PList [PDict manifest_legacy])))].
Definition sample_k : blob := jar_file members_k.

(** [f.jar]: Schema B, id [f], an empty display name, two declarations of
    the dependency [lib]. *)
Definition mods_entry_f : list (string * pyval) :=
  [("modId", PStr "f"); ("displayName", PStr "")].
Definition manifest_f : list (string * pyval) :=
  [("mods", PList [PDict mods_entry_f]);
   ("dependencies",
    PDict [("f", PList [PDict [("modId", PStr "lib")];
                        PDict [("modId", PStr "lib");
                               ("mandatory", PBool true)]])])].
Definition members_f : zipfile :=
  [("META-INF/mods.toml", Some (toml_file (PDict manifest_f)))].

(** The descriptors extracted from [b.jar], [f.jar] and [k.jar]. *)
Definition descriptor_b : descriptor :=
  {| id := PStr "b"; name := PStr "b";
     depends := [(PStr "x", {| required := PBool false |})];
     _path := Some "b.jar" |}.
Definition descriptor_f : descriptor :=
  {| id := PStr "f"; name := PStr "f";
     depends := [(PStr "lib", {| required := PBool true |})];
     _path := Some "f.jar" |}.
Definition descriptor_k : descriptor :=
  {| id := PStr "legacy"; name := PStr "legacy";
     depends := [(PStr "x", {| required := PBool true |})];
     _path := Some "k.jar" |}.

Definition descriptor_a : descriptor :=
  {| id := PStr "a"; name := PStr "a";
     depends := [(PStr "x", {| required := PBool true |})];
     _path := Some "a.jar" |}.

(** The registry of a folder holding [a.jar] and [b.jar]. *)
Definition sample_mods : dict descriptor :=
  [(PStr "a", descriptor_a); (PStr "b", descriptor_b)].

(** [c.jar]: Schema A, id [c], a hard dependency on [libX], which it
    bundles as a nested archive next to a member that cannot be read. *)
Definition manifest_c : list (string * pyval) :=
  [("id", PStr "c"); ("name", PStr "Mod C");
   ("depends", PDict [("libX", PStr "*")])].
Definition nested_libx : blob :=
  jar_file [("fabric.mod.json",
             Some (json_file (PDict [("id", PStr "LibX")])))].
Definition members_c : zipfile :=
  [("fabric.mod.json", Some (json_file (PDict manifest_c)));
   ("META-INF/jars/broken.jar", None);
   ("META-INF/jars/libx-1.0.jar", Some nested_libx)].
Definition sample_c : blob := jar_file members_c.

Definition sample_fs : filesystem :=
  disk [("a.jar", sample_a); ("b.jar", sample_b)].

(** ** The program and further statements *)

(** The main program without its console output: scan the folder, then
    build the graph from the registry. *)
Definition main (fs : filesystem) (jars : list string)
  : result (list line) :=
  mods <- scan_mod_folder fs jars ;;
  export_to_dot fs mods.

(** No key of the list is equal, as a dictionary key, to a later one. *)
Fixpoint keys_unique (ks : list pyval) : bool :=
  match ks with
  | [] => true
  | k :: rest => negb (py_in k rest) && keys_unique rest
  end.

(** The keys of a mapping built by the program: hashable and unique. *)
Definition keys_ok {V} (d : dict V) : Prop :=
  keys_unique (keys d) = true
  /\ (forall k, In k (keys d) -> hashable k = true).

(** A dependency is present when it is a key of the registry or some probe
    of a registered mod's archive succeeds. *)
Definition present (fs : filesystem) (mods : dict descriptor) (dep : pyval)
  : bool :=
  py_in dep (keys mods) || existsb (probe_succeeds fs dep) (values mods).

(** The node lines of the installed mods. *)
Definition node_lines (mods : dict descriptor) : list line :=
  map (fun kd => ModNode (fst kd) (name (snd kd))) mods.

(** An archive the scanner leaves out: nothing is extracted from it, or
    its identifier is falsy, or its identifier is excluded. *)
Definition left_out (fs : filesystem) (jar : string) : bool :=
  match extract_mod_metadata fs jar with
  | None => true
  | Some info => negb (truthy (id info)) || excluded (id info)
  end.

(** A truthy value on which [.lower()] is called must be a string. *)
Definition lowerable (v : pyval) : bool := negb (truthy v) || is_str v.

(** [e.jar]: a Schema B manifest with an empty [mods] list next to a valid
    Schema C manifest. *)
Definition members_e : zipfile :=
  [("META-INF/mods.toml", Some (toml_file (PDict [("mods", PList [])])));
   ("mcmod.info", Some (json_file (PList [PDict manifest_legacy])))].

(** [v2.jar]: an [mcmod.info] in object form, the list of mods being a
    field of the document. *)
Definition members_v2 : zipfile :=
  [("mcmod.info",
    Some (json_file (PDict [("modListVersion", PInt 2);
                            ("modList", PList [PDict manifest_legacy])])))].

(** The depends mapping extracted from [a.jar], before it is filtered. *)
Definition depends_a : dict meta :=
  [(PStr "x", {| required := PBool true |});
   (PStr "Fabric", {| required := PBool true |})].

(** [a2.jar]: a second archive declaring the identifier [a], under another
    name and without dependencies. *)
Definition sample_a2 : blob :=
  jar_file [("fabric.mod.json",
             Some (json_file (PDict [("id", PStr "a");
                                     ("name", PStr "Second A")])))].

(** A folder with two archives declaring [a], a file that is not an
    archive and the archive of the excluded loader. *)
Definition sample_fs2 : filesystem :=
  disk [("a.jar", sample_a); ("a2.jar", sample_a2); ("b.jar", sample_b);
        ("junk.jar", not_decodable);
        ("loader.jar",
         jar_file [("fabric.mod.json",
                    Some (json_file (PDict [("id", PStr "FabricLoader")])))])].

Definition descriptor_a2 : descriptor :=
  {| id := PStr "a"; name := PStr "Second A"; depends := [];
     _path := Some "a2.jar" |}.

(** The identifier of an entry of the ["jars"] list, the empty string when
    the entry has none. *)
Definition jar_entry_id (e : list (string * pyval)) : pyval :=
  match assoc "id" e with Some v => v | None => PStr "" end.

(** An entry of the ["jars"] list that the detector can read: a table
    whose identifier is a string. *)
Definition readable_jar_entry (entry : pyval) : bool :=
  match entry with
  | PDict e => is_str (jar_entry_id e)
  | _ => false
  end.

(** [g.jar]: Schema A, declaring the bundled archives [fabric-api-base]
    and [other] in its ["jars"] list, with an asset of [LibZ] and a class of
    [Shaded]. *)
Definition manifest_g : list (string * pyval) :=
  [("id", PStr "g");
   ("jars", PList [PDict [("file", PStr "META-INF/jars/other.jar")];
                   PDict [("id", PStr "Fabric-API-Base")]])].
Definition members_g : zipfile :=
  [("fabric.mod.json", Some (json_file (PDict manifest_g)));
   ("assets/libz/icon.png", Some not_decodable);
   ("COM/Shaded/Main.CLASS", Some not_decodable)].

(** Each element is at most the next one, in the order of [sorted]. *)
Fixpoint ascending (l : list pyval) : bool :=
  match l with
  | a :: (b :: _) as rest => str_le a b && ascending rest
  | _ => true
  end.


(** [n.jar]: Schema B, id [n], with a dependency table that has no
    [modId]. *)
Definition manifest_n : list (string * pyval) :=
  [("mods", PList [PDict [("modId", PStr "n")]]);
   ("dependencies",
    PDict [("n", PList [PDict [("mandatory", PBool true)]])])].
Definition sample_n : blob :=
  jar_file [("META-INF/mods.toml", Some (toml_file (PDict manifest_n)))].

(** What the pipeline leaves in a line of its output: no excluded
    identifier, and a truthy name on every node. *)
Definition clean_line (l : line) : bool :=
  match l with
  | Fixed _ => true
  | ModNode k nm => is_str k && negb (excluded k) && truthy nm
  | Edge k dep _ => is_str k && negb (excluded k) && negb (excluded dep)
  | Placeholder dep _ => negb (excluded dep)
  end.

(** ** Basic facts *)

Lemma key_eqb_sym a b : key_eqb a b = key_eqb b a.
Proof.
  destruct a, b; simpl; try reflexivity;
    try apply Z.eqb_sym; try apply String.eqb_sym.
Qed.

Lemma key_eqb_trans a b c :
  key_eqb a b = true -> key_eqb b c = true -> key_eqb a c = true.
Proof.
  destruct a, b, c; simpl; try discriminate; try reflexivity;
    rewrite ?Z.eqb_eq, ?String.eqb_eq; congruence.
Qed.

Lemma key_eqb_str s v : key_eqb (PStr s) v = true -> v = PStr s.
Proof.
  destruct v; simpl; try discriminate.
  rewrite String.eqb_eq. congruence.
Qed.

Lemma key_eqb_str_l v s : key_eqb v (PStr s) = true -> v = PStr s.
Proof. rewrite key_eqb_sym. apply key_eqb_str. Qed.

Lemma key_eqb_refl_hashable k : hashable k = true -> key_eqb k k = true.
Proof.
  destruct k; simpl; try discriminate; intros _;
    rewrite ?Z.eqb_refl, ?String.eqb_refl; reflexivity.
Qed.

Lemma dict_get_set {V} (d : dict V) k v k' :
  dict_get (dict_set d k v) k'
  = if key_eqb k k' then
      (if hashable k then Some v
       else match dict_get d k' with Some _ => Some v | None => None end)
    else dict_get d k'.
Proof.
  induction d as [|[k0 v0] d IH]; simpl.
  - destruct (key_eqb k k') eqn:E; [|reflexivity].
    destruct k; simpl in *; try reflexivity; destruct k'; discriminate.
  - destruct (key_eqb k0 k) eqn:E0; simpl.
    + destruct (key_eqb k k') eqn:E.
      * rewrite (key_eqb_trans _ _ _ E0 E).
        destruct (hashable k); reflexivity.
      * destruct (key_eqb k0 k') eqn:E1; [|reflexivity].
        rewrite key_eqb_sym in E0.
        rewrite (key_eqb_trans _ _ _ E0 E1) in E. discriminate.
    + destruct (key_eqb k0 k') eqn:E1.
      * destruct (key_eqb k k') eqn:E; [|reflexivity].
        rewrite (key_eqb_sym k k') in E.
        rewrite (key_eqb_trans _ _ _ E1 E) in E0. discriminate.
      * apply IH.
Qed.

Lemma for_each_app {A S} (l1 l2 : list A) (s : S) body :
  for_each (l1 ++ l2) s body
  = (s' <- for_each l1 s body ;; for_each l2 s' body).
Proof.
  revert s. induction l1 as [|x l1 IH]; intros s; simpl; [reflexivity|].
  destruct (body s x); simpl; [apply IH | reflexivity].
Qed.

(** An invariant of the loop state holds after the loop when every
    iteration that does not raise preserves it. *)
Lemma for_each_inv {A S} (P : S -> Prop) (l : list A) body :
  (forall s x s', In x l -> P s -> body s x = Ok s' -> P s') ->
  forall s s', P s -> for_each l s body = Ok s' -> P s'.
Proof.
  induction l as [|x l IH]; simpl; intros Hb s s' Hs H.
  - congruence.
  - destruct (body s x) as [s1|] eqn:E; simpl in H; [|discriminate].
    apply (IH (fun s0 x0 s0' Hin => Hb s0 x0 s0' (or_intror Hin)) s1 s');
      [|exact H].
    apply (Hb s x s1); auto.
Qed.

(** ** The two extractors agree *)

Ltac bind_case :=
  match goal with
  | |- context [bind ?c _] => destruct c; simpl; try reflexivity
  | |- context [if ?b then _ else _] => destruct b; simpl; try reflexivity
  end.

(** Case analysis on every step of a block that returned. *)
Ltac bind_inv H :=
  repeat match type of H with
    | bind ?c _ = _ =>
        let E := fresh "E" in
        destruct c eqn:E; simpl in H; [|discriminate H]
    | (if ?b then _ else _) = _ =>
        let E := fresh "E" in destruct b eqn:E; simpl in H
    end.

Lemma fabric_block_tag jar p :
  fabric_block jar p = tag p (fabric_from_bytes jar).
Proof.
  unfold fabric_block, fabric_from_bytes. repeat bind_case.
Qed.

Lemma forge_block_tag jar p :
  forge_block jar p = tag p (forge_from_bytes jar).
Proof.
  unfold forge_block, forge_from_bytes. repeat bind_case.
Qed.

Lemma mcmod_block_tag jar p :
  mcmod_block jar p = tag p (mcmod_from_bytes jar).
Proof.
  unfold mcmod_block, mcmod_from_bytes. repeat bind_case.
  destruct a0 as [| | | |[|entry l]|]; simpl; try reflexivity.
  repeat bind_case.
Qed.

Lemma try_pass_tag p r :
  try_pass (tag p r)
  = match try_pass r with
    | Return o => Return (option_map (with_path p) o)
    | Next => Next
    end.
Proof.
  destruct r as [[[d|]|]|]; reflexivity.
Qed.

Lemma extract_agree fs jar_path raw :
  fs jar_path = Some raw ->
  extract_mod_metadata fs jar_path
  = option_map (with_path jar_path) (extract_metadata_from_bytes raw).
Proof.
  intros Hfs. unfold extract_mod_metadata, extract_metadata_from_bytes,
    ZipFile_path. rewrite Hfs.
  destruct (ZipFile_bytes raw) as [jar|]; [|reflexivity].
  rewrite fabric_block_tag, forge_block_tag, mcmod_block_tag.
  destruct (str_in "fabric.mod.json" (namelist jar));
    [rewrite try_pass_tag;
     destruct (try_pass (fabric_from_bytes jar)); [reflexivity|] |];
    (destruct (str_in "META-INF/mods.toml" (namelist jar));
     [rewrite try_pass_tag;
      destruct (try_pass (forge_from_bytes jar)); [reflexivity|] |]);
    (destruct (str_in "mcmod.info" (namelist jar));
     [rewrite try_pass_tag;
      destruct (try_pass (mcmod_from_bytes jar)); reflexivity
     | reflexivity]).
Qed.

Lemma fabric_from_bytes_no_path jar d :
  fabric_from_bytes jar = Ok (Return (Some d)) -> _path d = None.
Proof.
  unfold fabric_from_bytes. intros H. bind_inv H.
  inversion H; reflexivity.
Qed.

Lemma forge_from_bytes_no_path jar d :
  forge_from_bytes jar = Ok (Return (Some d)) -> _path d = None.
Proof.
  unfold forge_from_bytes. intros H. bind_inv H; [discriminate H|].
  bind_inv H. inversion H; reflexivity.
Qed.

Lemma mcmod_from_bytes_no_path jar d :
  mcmod_from_bytes jar = Ok (Return (Some d)) -> _path d = None.
Proof.
  unfold mcmod_from_bytes. intros H. bind_inv H.
  destruct a0 as [| | | |[|entry l]|]; try discriminate H.
  bind_inv H. inversion H; reflexivity.
Qed.

Lemma from_bytes_no_path raw d :
  extract_metadata_from_bytes raw = Some d -> _path d = None.
Proof.
  unfold extract_metadata_from_bytes.
  destruct (ZipFile_bytes raw) as [jar|]; [|discriminate].
  assert (A : forall o, try_pass (fabric_from_bytes jar) = Return o ->
                        o = Some d -> _path d = None).
  { intros o E ->. unfold try_pass in E.
    destruct (fabric_from_bytes jar) as [f|] eqn:F; [|discriminate].
    subst f. eapply fabric_from_bytes_no_path; eauto. }
  assert (B : forall o, try_pass (forge_from_bytes jar) = Return o ->
                        o = Some d -> _path d = None).
  { intros o E ->. unfold try_pass in E.
    destruct (forge_from_bytes jar) as [f|] eqn:F; [|discriminate].
    subst f. eapply forge_from_bytes_no_path; eauto. }
  assert (C : forall o, try_pass (mcmod_from_bytes jar) = Return o ->
                        o = Some d -> _path d = None).
  { intros o E ->. unfold try_pass in E.
    destruct (mcmod_from_bytes jar) as [f|] eqn:F; [|discriminate].
    subst f. eapply mcmod_from_bytes_no_path; eauto. }
  destruct (str_in "fabric.mod.json" (namelist jar));
    [destruct (try_pass (fabric_from_bytes jar)) eqn:EA; [eauto|] |];
    (destruct (str_in "META-INF/mods.toml" (namelist jar));
     [destruct (try_pass (forge_from_bytes jar)) eqn:EB; [eauto|] |]);
    (destruct (str_in "mcmod.info" (namelist jar));
     [destruct (try_pass (mcmod_from_bytes jar)) eqn:EC; [eauto|] |]);
    discriminate.
Qed.

(** C8.  An archive content read from disk and the same content given as raw
    bytes extract alike: both extractions are absent together, and when
    present the two descriptors have the same id, name and depends; the one
    from disk carries the path as its source location and the one from bytes
    carries none. *)
Theorem extraction_from_disk_and_from_bytes_agree fs jar_path raw :
  fs jar_path = Some raw ->
  match extract_mod_metadata fs jar_path, extract_metadata_from_bytes raw with
  | None, None => True
  | Some d, Some b =>
      id d = id b /\ name d = name b /\ depends d = depends b
      /\ _path d = Some jar_path /\ _path b = None
  | _, _ => False
  end.
Proof.
  intros Hfs. rewrite (extract_agree fs jar_path raw Hfs).
  destruct (extract_metadata_from_bytes raw) as [b|] eqn:E; simpl; [|exact I].
  repeat split; try reflexivity.
  eapply from_bytes_no_path; eauto.
Qed.

Lemma extraction_agree_witness :
  sample_fs "a.jar" = Some sample_a
  /\ match extract_mod_metadata sample_fs "a.jar",
           extract_metadata_from_bytes sample_a with
     | None, None => True
     | Some d, Some b =>
         id d = id b /\ name d = name b /\ depends d = depends b
         /\ _path d = Some "a.jar" /\ _path b = None
     | _, _ => False
     end.
Proof.
  split; [reflexivity|].
  apply (extraction_from_disk_and_from_bytes_agree sample_fs "a.jar" sample_a).
  reflexivity.
Defined.

(** ** Schema A *)

Lemma getinfo_in name jar :
  getinfo name jar <> None -> str_in name (namelist jar) = true.
Proof.
  induction jar as [|[n c0] jar IH]; simpl; [congruence|].
  destruct (getinfo name jar) as [x|].
  - intros _. rewrite IH by discriminate. apply orb_true_r.
  - destruct (n =? name); [reflexivity | congruence].
Qed.

Lemma zip_read_in jar name f :
  zip_read jar name = Ok f -> str_in name (namelist jar) = true.
Proof.
  unfold zip_read. destruct (getinfo name jar) as [c|] eqn:E; [|discriminate].
  intros _. apply getinfo_in. rewrite E. discriminate.
Qed.






(** ** Merging declarations: the last one wins *)











(** ** Identity fields *)




(** ** A failing schema is skipped *)

Lemma getinfo_remove_other n name jar :
  n <> name -> getinfo n (remove_member name jar) = getinfo n jar.
Proof.
  intros Hn. induction jar as [|[m c] jar IH]; simpl; [reflexivity|].
  destruct (m =? name) eqn:E; simpl.
  - apply String.eqb_eq in E; subst m. rewrite IH.
    destruct (getinfo n jar); [reflexivity|].
    destruct (name =? n) eqn:E'; [|reflexivity].
    apply String.eqb_eq in E'. congruence.
  - rewrite IH. reflexivity.
Qed.

Lemma str_in_remove_other n name jar :
  n <> name ->
  str_in n (namelist (remove_member name jar)) = str_in n (namelist jar).
Proof.
  intros Hn. induction jar as [|[m c] jar IH]; simpl; [reflexivity|].
  destruct (m =? name) eqn:E; simpl.
  - apply String.eqb_eq in E; subst m. rewrite IH.
    destruct (name =? n) eqn:E'; [|reflexivity].
    apply String.eqb_eq in E'. congruence.
  - fold (namelist (remove_member name jar)). unfold str_in in *.
    rewrite IH. reflexivity.
Qed.

Lemma str_in_remove_self name jar :
  str_in name (namelist (remove_member name jar)) = false.
Proof.
  induction jar as [|[m c] jar IH]; simpl; [reflexivity|].
  destruct (m =? name) eqn:E; simpl; [exact IH|].
  rewrite E. exact IH.
Qed.

Lemma block_other s s' jar p :
  manifest_path s' <> manifest_path s ->
  block s' (remove_member (manifest_path s) jar) p = block s' jar p.
Proof.
  intros Hn.
  assert (R : zip_read (remove_member (manifest_path s) jar)
                (manifest_path s')
              = zip_read jar (manifest_path s')).
  { unfold zip_read. now rewrite getinfo_remove_other. }
  destruct s'; simpl in *;
    unfold fabric_block, forge_block, mcmod_block; now rewrite R.
Qed.

(** [extract_mod_metadata] on an opened archive. *)
Lemma extract_mod_metadata_eq fs p jar :
  ZipFile_path fs p = Ok jar ->
  extract_mod_metadata fs p
  = match (if str_in (manifest_path SchemaA) (namelist jar)
           then try_pass (block SchemaA jar p) else Next) with
    | Return r => r
    | Next =>
    match (if str_in (manifest_path SchemaB) (namelist jar)
           then try_pass (block SchemaB jar p) else Next) with
    | Return r => r
    | Next =>
    match (if str_in (manifest_path SchemaC) (namelist jar)
           then try_pass (block SchemaC jar p) else Next) with
    | Return r => r
    | Next => None
    end end end.
Proof.
  intros H. unfold extract_mod_metadata. rewrite H. reflexivity.
Qed.

(** C2 (amended).  A failure inside the handling of a detected schema only
    discards that schema's attempt: the extractor goes on to the later
    schemas, and its result is the one it gives on the same archive without
    the failing manifest. *)
Theorem failed_schema_is_skipped fs jar_path jar s e :
  ZipFile_path fs jar_path = Ok jar ->
  block s jar jar_path = Raise e ->
  extract_mod_metadata fs jar_path
  = extract_mod_metadata
      (replace_archive fs jar_path (remove_member (manifest_path s) jar))
      jar_path.
Proof.
  intros Hz Hb.
  rewrite (extract_mod_metadata_eq fs jar_path jar Hz).
  rewrite (extract_mod_metadata_eq _ jar_path
             (remove_member (manifest_path s) jar)).
  2:{ unfold ZipFile_path, replace_archive. now rewrite String.eqb_refl. }
  destruct s.
  - rewrite str_in_remove_self, Hb.
    rewrite !(block_other SchemaA) by (simpl; discriminate).
    rewrite !str_in_remove_other by (simpl; discriminate).
    simpl try_pass. destruct (str_in _ _); reflexivity.
  - rewrite str_in_remove_self, Hb.
    rewrite !(block_other SchemaB) by (simpl; discriminate).
    rewrite !str_in_remove_other by (simpl; discriminate).
    simpl try_pass.
    destruct (str_in (manifest_path SchemaB) (namelist jar)); reflexivity.
  - rewrite str_in_remove_self, Hb.
    rewrite !(block_other SchemaC) by (simpl; discriminate).
    rewrite !str_in_remove_other by (simpl; discriminate).
    simpl try_pass.
    destruct (str_in (manifest_path SchemaC) (namelist jar)); reflexivity.
Qed.

Lemma failed_schema_witness :
  extract_mod_metadata (disk [("k.jar", sample_k)]) "k.jar"
  = extract_mod_metadata
      (replace_archive (disk [("k.jar", sample_k)]) "k.jar"
         (remove_member (manifest_path SchemaA) members_k))
      "k.jar".
Proof.
  apply (failed_schema_is_skipped (disk [("k.jar", sample_k)]) "k.jar"
           members_k SchemaA ValueError); reflexivity.
Defined.

(** C2 as stated fails: in [k.jar] the Schema A manifest is detected and its
    handling raises, yet the extractor returns the descriptor of the
    Schema C manifest of the same archive. *)
Lemma failed_schema_a_yields_schema_c :
  str_in "fabric.mod.json" (namelist members_k) = true
  /\ fabric_block members_k "k.jar" = Raise ValueError
  /\ extract_mod_metadata (disk [("k.jar", sample_k)]) "k.jar"
     = Some descriptor_k.
Proof.
  repeat split; reflexivity.
Qed.

(** ** The Embedding Detector *)

Lemma first_return_hit {A} (l : list A) (body : A -> flow bool) :
  (forall x, body x <> Return false) ->
  first_return l body
  = if existsb (fun x => hit (body x)) l then Return true else Next.
Proof.
  intros Hb. induction l as [|x l IH]; simpl; [reflexivity|].
  specialize (Hb x).
  destruct (body x) as [[|]|]; simpl; [reflexivity | congruence | exact IH].
Qed.

Lemma existsb_eq {A} (f g : A -> bool) (l : list A) :
  (forall x, f x = g x) -> existsb f l = existsb g l.
Proof.
  intros H. induction l as [|x l IH]; simpl; [reflexivity|].
  now rewrite H, IH.
Qed.

Lemma first_return_never_false {A} (l : list A) (body : A -> flow bool) :
  (forall x, body x <> Return false) ->
  first_return l body <> Return false.
Proof.
  intros Hb. rewrite first_return_hit by assumption.
  destruct (existsb _ l); discriminate.
Qed.

Lemma nested_probe_hit jar dep name :
  try_pass (nested_probe jar dep name)
  = if nested_match jar dep name then Return true else Next.
Proof.
  unfold nested_probe, nested_match.
  destruct (zip_read jar name) as [raw|]; simpl; [|reflexivity].
  destruct (extract_metadata_from_bytes raw) as [m|]; [|reflexivity].
  destruct (id m) as [|[|]|z|t|[|]|[|]]; simpl; try reflexivity.
  - destruct (z =? 0)%Z; reflexivity.
  - destruct (t =? ""); simpl; [reflexivity|].
    destruct (lower t =? dep); reflexivity.
Qed.

Lemma jars_loop_hit dep entries :
  try_pass
    (first_return_try entries
       (fun entry =>
          i <- py_get entry (PStr "id") (PStr "") ;;
          s <- py_lower i ;;
          if contains dep s then Ok (Return true) else Ok Next))
  = if jars_listed entries dep then Return true else Next.
Proof.
  induction entries as [|entry entries IH]; simpl; [reflexivity|].
  destruct entry as [| | | | |e]; simpl; try reflexivity.
  destruct (match assoc "id" e with Some v => v | None => PStr "" end)
    as [| | |t| |]; simpl; try reflexivity.
  destruct (contains dep (lower t)); simpl; [reflexivity|].
  exact IH.
Qed.

Lemma jars_probe_hit jar dep :
  (if str_in "fabric.mod.json" (namelist jar)
   then try_pass (jars_probe jar dep) else Next)
  = if jars_hit jar dep then Return true else Next.
Proof.
  unfold jars_hit, manifest. simpl manifest_path.
  destruct (str_in "fabric.mod.json" (namelist jar)); [|reflexivity].
  simpl andb. unfold jars_probe.
  destruct (zip_read jar "fabric.mod.json") as [f|]; simpl; [|reflexivity].
  unfold json_load.
  destruct (as_json f) as [[| | | | |data]|]; simpl; try reflexivity.
  destruct (assoc "jars" data) as [[| | |t|entries|d]|]; simpl;
    try reflexivity.
  - destruct t; reflexivity.
  - apply jars_loop_hit.
  - destruct d; reflexivity.
Qed.

Lemma is_dependency_embedded_eq fs jar_path dep_id :
  is_dependency_embedded fs jar_path (PStr dep_id)
  = Ok match ZipFile_path fs jar_path with
       | Raise _ => false
       | Ok jar =>
           let dep := lower dep_id in
           nested_hit jar dep || namespace_hit jar dep || class_hit jar dep
           || jars_hit jar dep
       end.
Proof.
  unfold is_dependency_embedded.
  change (py_lower (PStr dep_id)) with (Ok (lower dep_id)).
  unfold bind. cbv beta iota.
  destruct (ZipFile_path fs jar_path) as [jar|]; [|reflexivity].
  cbv zeta.
  set (dep := lower dep_id).
  assert (N : forall prefix name,
             (if startswith name prefix && endswith name ".jar"
              then try_pass (nested_probe jar dep name) else Next)
             = if startswith name prefix && endswith name ".jar"
                  && nested_match jar dep name
               then Return true else Next).
  { intros prefix name. rewrite nested_probe_hit.
    destruct (startswith name prefix && endswith name ".jar"); reflexivity. }
  assert (N' : forall prefix,
             first_return (namelist jar) (fun name =>
               if startswith name prefix && endswith name ".jar"
               then try_pass (nested_probe jar dep name) else Next)
             = if existsb (fun name =>
                             startswith name prefix && endswith name ".jar"
                             && nested_match jar dep name) (namelist jar)
               then Return true else Next).
  { intros prefix. rewrite first_return_hit.
    - erewrite existsb_eq; [reflexivity|].
      intros name. cbv beta. rewrite N. now destruct (_ && _ && _).
    - intros name. rewrite N. destruct (_ && _ && _); discriminate. }
  rewrite first_return_hit.
  2:{ intros prefix. rewrite N'. destruct (existsb _ _); discriminate. }
  rewrite (existsb_eq _
             (fun prefix =>
                existsb (fun name =>
                           startswith name prefix && endswith name ".jar"
                           && nested_match jar dep name) (namelist jar))).
  2:{ intros prefix. cbv beta. rewrite N'. now destruct (existsb _ _). }
  fold (nested_hit jar dep).
  destruct (nested_hit jar dep); [reflexivity|]. simpl orb.
  rewrite first_return_hit.
  2:{ intros ns. destruct (existsb _ _); discriminate. }
  rewrite (existsb_eq _
              (fun ns => existsb (fun p => startswith p ns) (namelist jar))).
  2:{ intros ns. now destruct (existsb _ _). }
  fold (namespace_hit jar dep).
  destruct (namespace_hit jar dep); [reflexivity|]. simpl orb.
  rewrite first_return_hit.
  2:{ intros name. destruct (existsb _ _); [|discriminate].
      destruct (endswith _ _); discriminate. }
  rewrite (existsb_eq _
              (fun name =>
                 existsb (fun pref => startswith (lower name) pref)
                   [(dep ++ "/")%string; ("com/" ++ dep ++ "/")%string;
                    ("net/" ++ dep ++ "/")%string;
                    ("io/" ++ dep ++ "/")%string]
                 && endswith (lower name) ".class")).
  2:{ intros name. destruct (existsb _ _); [|reflexivity].
      now destruct (endswith _ _). }
  fold (class_hit jar dep).
  destruct (class_hit jar dep); [reflexivity|]. simpl orb.
  rewrite jars_probe_hit.
  destruct (jars_hit jar dep); reflexivity.
Qed.


(** A dependency identifier that is not a string makes the detector raise:
    [dep_id.lower()] is evaluated outside any [try]. *)
Lemma is_dependency_embedded_not_str fs jar_path dep_id :
  is_str dep_id = false ->
  is_dependency_embedded fs jar_path dep_id = Raise AttributeError.
Proof.
  destruct dep_id; simpl; try discriminate; reflexivity.
Qed.

(** ** The scanner *)

Lemma dict_set_In {V} (d : dict V) k v k' v' :
  In (k', v') (dict_set d k v) ->
  In (k', v') d \/ (v' = v /\ (k' = k \/ key_eqb k' k = true)).
Proof.
  induction d as [|[k0 v0] d IH]; simpl.
  - intros [H|[]]. inversion H; subst. right; split; auto.
  - destruct (key_eqb k0 k) eqn:E; simpl.
    + intros [H|H].
      * inversion H; subst. right; split; auto.
      * left; now right.
    + intros [H|H].
      * left; now left.
      * destruct (IH H) as [H'|H']; [left; now right | now right].
Qed.

Lemma should_ignore_falsy v ig :
  should_ignore v = Ok ig -> truthy ig = false -> excluded v = false.
Proof.
  unfold should_ignore.
  destruct (truthy v) eqn:T.
  - destruct v; simpl; try discriminate.
    intros H; inversion H; subst. simpl. auto.
  - intros H; inversion H; subst. intros _.
    destruct ig; simpl in *; try reflexivity.
    apply negb_false_iff, String.eqb_eq in T. subst. reflexivity.
Qed.

Lemma should_ignore_truthy v ig :
  truthy v = true -> should_ignore v = Ok ig ->
  exists s, v = PStr s /\ s <> "".
Proof.
  unfold should_ignore. intros T. rewrite T.
  destruct v; simpl; try discriminate.
  intros _. exists s. split; [reflexivity|].
  simpl in T. apply negb_true_iff, String.eqb_neq in T. exact T.
Qed.

Lemma filter_depends_not_excluded deps deps' :
  filter_depends deps = Ok deps' ->
  forall dep, In dep (keys deps') -> excluded dep = false.
Proof.
  unfold filter_depends.
  apply (for_each_inv
           (fun acc : dict meta =>
              forall dep, In dep (keys acc) -> excluded dep = false)).
  - intros acc d acc' _ Hacc Hstep dep Hin.
    destruct (should_ignore d) as [ig|] eqn:Hig; simpl in Hstep;
      [|discriminate].
    destruct (truthy ig) eqn:T; simpl in Hstep.
    + inversion Hstep; subst. auto.
    + destruct (dict_get deps d) as [m|]; [|discriminate].
      unfold setitem in Hstep.
      destruct (hashable d); [|discriminate].
      inversion Hstep; subst; clear Hstep.
      unfold keys in Hin. apply in_map_iff in Hin.
      destruct Hin as ([k' v'] & Hk & Hin). simpl in Hk; subst k'.
      destruct (dict_set_In _ _ _ _ _ Hin) as [H|[_ [H|H]]].
      * apply Hacc. unfold keys. apply in_map_iff.
        exists (dep, v'); auto.
      * subst. eapply should_ignore_falsy; eauto.
      * (* the key stored under an equal key was already in [acc] *)
        clear Hin. revert H. generalize (should_ignore_falsy _ _ Hig T).
        destruct dep, d; simpl; intros Hex Hk; try reflexivity;
          try discriminate.
        apply String.eqb_eq in Hk. subst. exact Hex.
  - intros dep [].
Qed.

Lemma scan_step_registered fs mods jar mods' :
  (forall kd, In kd mods -> registered kd) ->
  scan_step fs mods jar = Ok mods' ->
  forall kd, In kd mods' -> registered kd.
Proof.
  intros Hm Hs. unfold scan_step in Hs.
  destruct (extract_mod_metadata fs jar) as [info|];
    [|inversion Hs; subst; exact Hm].
  destruct (truthy (id info)) eqn:T; [|inversion Hs; subst; exact Hm].
  destruct (should_ignore (id info)) as [ig|] eqn:Hig; simpl in Hs;
    [|discriminate].
  destruct (truthy ig) eqn:Tig; simpl in Hs;
    [inversion Hs; subst; exact Hm|].
  destruct (filter_depends (depends info)) as [deps|] eqn:Hf; simpl in Hs;
    [|discriminate].
  unfold setitem in Hs. destruct (hashable (id info)); [|discriminate].
  inversion Hs; subst; clear Hs.
  destruct (should_ignore_truthy _ _ T Hig) as (s & Hid & Hne).
  intros [k d] Hin.
  destruct (dict_set_In _ _ _ _ _ Hin) as [H|[Hd Hk]]; [now apply Hm|].
  assert (k = PStr s) as ->.
  { destruct Hk as [Hk|Hk]; [congruence|].
    rewrite Hid in Hk. now apply key_eqb_str_l. }
  subst d. unfold registered; cbn [fst snd id depends].
  split; [exists s; auto|].
  split; [rewrite <- Hid; eapply should_ignore_falsy; eauto|].
  split; [exact Hid|].
  eapply filter_depends_not_excluded; eauto.
Qed.

(** C6.  Every entry of the registry returned by the scanner has a key that
    is a non-empty string (neither empty nor absent) outside the exclusion
    set, and no key of its depends mapping matches the exclusion set. *)
Theorem registry_has_no_excluded_identifier fs jars mods k d :
  scan_mod_folder fs jars = Ok mods ->
  In (k, d) mods ->
  (exists s, k = PStr s /\ s <> "")
  /\ excluded k = false
  /\ (forall dep, In dep (keys (depends d)) -> excluded dep = false).
Proof.
  intros Hs Hin.
  assert (R : forall kd, In kd mods -> registered kd).
  { revert Hs. unfold scan_mod_folder.
    apply (for_each_inv (fun m => forall kd, In kd m -> registered kd)).
    - intros m jar m' _ Hm Hstep. eapply scan_step_registered; eauto.
    - intros kd []. }
  destruct (R _ Hin) as (A & B & _ & C). auto.
Qed.

Lemma registry_witness :
  (exists s, PStr "a" = PStr s /\ s <> "")
  /\ excluded (PStr "a") = false
  /\ (forall dep,
        In dep (keys [(PStr "x", {| required := PBool true |})]) ->
        excluded dep = false).
Proof.
  apply (registry_has_no_excluded_identifier sample_fs ["a.jar"; "b.jar"]
           sample_mods (PStr "a") descriptor_a).
  - reflexivity.
  - left. reflexivity.
Defined.

(** ** Registry membership *)





(** ** The graph builder *)

Lemma embedded_ok_str fs p dep b :
  is_dependency_embedded fs p dep = Ok b -> is_str dep = true.
Proof.
  unfold is_dependency_embedded. destruct dep; simpl; try discriminate.
  reflexivity.
Qed.

Lemma any_embedded_spec fs ms dep b :
  any_embedded fs ms dep = Ok b ->
  b = existsb (probe_succeeds fs dep) ms
  /\ (ms <> [] -> is_str dep = true).
Proof.
  revert b. induction ms as [|m ms IH]; simpl; intros b H.
  - inversion H; subst. split; [reflexivity | congruence].
  - unfold get_path in H. unfold probe_succeeds at 1.
    destruct (_path m) as [p|]; simpl in H; [|discriminate].
    destruct (is_dependency_embedded fs p dep) as [b0|] eqn:E; simpl in H;
      [|discriminate].
    split; [|intros _; eapply embedded_ok_str; eauto].
    destruct b0.
    + inversion H; reflexivity.
    + simpl. apply IH. exact H.
Qed.

Lemma edge_step_result fs mods mod_id st dep m st' :
  mods <> [] ->
  edge_step fs mods mod_id st (dep, m) = Ok st' ->
  out st' = out st ++ [Edge mod_id dep (edge_status fs mods (dep, m))]
  /\ match edge_status fs mods (dep, m) with
     | satisfied =>
         missing_required_set st' = missing_required_set st
         /\ missing_optional_set st' = missing_optional_set st
     | missing_required =>
         is_str dep = true
         /\ missing_required_set st' = set_add (missing_required_set st) dep
         /\ missing_optional_set st' = missing_optional_set st
     | missing_optional =>
         is_str dep = true
         /\ missing_required_set st' = missing_required_set st
         /\ missing_optional_set st' = set_add (missing_optional_set st) dep
     end.
Proof.
  intros Hne H. unfold edge_step in H. unfold edge_status. simpl fst.
  simpl snd.
  destruct (py_in dep (keys mods)) eqn:Hin; simpl in H |- *.
  - inversion H; subst; simpl. auto.
  - destruct (any_embedded fs (values mods) dep) as [found|] eqn:Ha;
      simpl in H; [|discriminate].
    destruct (any_embedded_spec _ _ _ _ Ha) as [Hf Hs].
    assert (Hstr : is_str dep = true).
    { apply Hs. unfold values. destruct mods; simpl; congruence. }
    rewrite <- Hf.
    destruct found; simpl in H |- *.
    + inversion H; subst; simpl. auto.
    + destruct (truthy (required m)); inversion H; subst; simpl; auto.
Qed.

Lemma inner_loop_out fs mods mod_id items : forall st st',
  mods <> [] ->
  for_each items st (edge_step fs mods mod_id) = Ok st' ->
  out st' = out st ++ map (fun item =>
                             Edge mod_id (fst item) (edge_status fs mods item))
                          items.
Proof.
  induction items as [|[dep m] items IH]; intros st st' Hne H;
    cbn [for_each map fst] in *.
  - inversion H; subst. now rewrite app_nil_r.
  - destruct (edge_step fs mods mod_id st (dep, m)) as [st1|] eqn:E;
      cbn [bind] in H; [|discriminate].
    destruct (edge_step_result _ _ _ _ _ _ _ Hne E) as [Ho _].
    rewrite (IH _ _ Hne H), Ho, <- app_assoc. reflexivity.
Qed.

Lemma outer_loop_out fs mods l : forall st st',
  l = [] \/ mods <> [] ->
  for_each l st
    (fun st kd => for_each (depends (snd kd)) st (edge_step fs mods (fst kd)))
  = Ok st' ->
  out st' = out st
            ++ flat_map (fun kd =>
                 map (fun item =>
                        Edge (fst kd) (fst item) (edge_status fs mods item))
                     (depends (snd kd))) l.
Proof.
  induction l as [|kd l IH]; simpl; intros st st' Hne H.
  - inversion H; subst. now rewrite app_nil_r.
  - destruct Hne as [Hne|Hne]; [discriminate Hne|].
    destruct (for_each (depends (snd kd)) st (edge_step fs mods (fst kd)))
      as [st1|] eqn:E; simpl in H; [|discriminate].
    rewrite (IH _ _ (or_intror Hne) H), (inner_loop_out _ _ _ _ _ _ Hne E),
      <- app_assoc.
    reflexivity.
Qed.

Lemma edges_app l1 l2 : edges (l1 ++ l2) = edges l1 ++ edges l2.
Proof. apply filter_app. Qed.

Lemma edges_of_edges {A} (f : A -> pyval * pyval * status) (l : list A) :
  edges (map (fun x => Edge (fst (fst (f x))) (snd (fst (f x))) (snd (f x))) l)
  = map (fun x => Edge (fst (fst (f x))) (snd (fst (f x))) (snd (f x))) l.
Proof.
  induction l as [|x l IH]; simpl; [reflexivity|].
  f_equal. exact IH.
Qed.

Lemma edges_expected fs mods l :
  edges (flat_map (fun kd =>
                     map (fun item =>
                            Edge (fst kd) (fst item) (edge_status fs mods item))
                         (depends (snd kd))) l)
  = flat_map (fun kd =>
                map (fun item =>
                       Edge (fst kd) (fst item) (edge_status fs mods item))
                    (depends (snd kd))) l.
Proof.
  induction l as [|kd l IH]; simpl; [reflexivity|].
  rewrite edges_app, IH. f_equal.
  apply (edges_of_edges
           (fun item => (fst kd, fst item, edge_status fs mods item))).
Qed.

Lemma edges_none {A} (g : A -> line) (l : list A) :
  (forall x, is_edge (g x) = false) -> edges (map g l) = [].
Proof.
  intros H. induction l as [|x l IH]; simpl; [reflexivity|].
  rewrite H. exact IH.
Qed.

(** [export_to_dot], when it returns, in terms of the final loop state. *)
Lemma export_to_dot_ok fs mods lines :
  export_to_dot fs mods = Ok lines ->
  exists st req opt,
    for_each mods
      {| missing_required_set := []; missing_optional_set := [];
         out := header
                ++ map (fun kd => ModNode (fst kd) (name (snd kd))) mods |}
      (fun st kd =>
         for_each (depends (snd kd)) st (edge_step fs mods (fst kd)))
    = Ok st
    /\ py_sorted (missing_required_set st) = Ok req
    /\ py_sorted (missing_optional_set st) = Ok opt
    /\ lines = out st
               ++ map (fun dep => Placeholder dep missing_required) req
               ++ map (fun dep => Placeholder dep missing_optional) opt
               ++ [Fixed "}"].
Proof.
  unfold export_to_dot. intros H.
  destruct (for_each mods _ _) as [st|] eqn:E; simpl in H; [|discriminate].
  destruct (py_sorted (missing_required_set st)) as [req|] eqn:R;
    simpl in H; [|discriminate].
  destruct (py_sorted (missing_optional_set st)) as [opt|] eqn:O;
    simpl in H; [|discriminate].
  inversion H; subst. exists st, req, opt. auto.
Qed.

(** C1.  When the graph builder returns, its edge lines are, mod by mod in
    registry order and pair by pair in the order of the filtered depends
    mapping, one edge per pair: satisfied exactly when the dependency is a
    key of the registry or some probe of the Embedding Detector against a
    registered mod's source archive returns true, otherwise missing_required
    when the pair's required flag is true and missing_optional when it is
    false. *)
Theorem edges_are_classified fs mods lines :
  export_to_dot fs mods = Ok lines ->
  edges lines = expected_edges fs mods.
Proof.
  intros H.
  destruct (export_to_dot_ok _ _ _ H) as (st & req & opt & Hl & _ & _ & ->).
  apply outer_loop_out in Hl.
  2:{ destruct mods; [now left | right; discriminate]. }
  rewrite Hl. cbn [out].
  rewrite !edges_app, edges_expected.
  rewrite (edges_none (fun kd => ModNode (fst kd) (name (snd kd))))
    by reflexivity.
  rewrite (edges_none (fun dep => Placeholder dep missing_required))
    by reflexivity.
  rewrite (edges_none (fun dep => Placeholder dep missing_optional))
    by reflexivity.
  change (edges header) with (@nil line).
  change (edges [Fixed "}"]) with (@nil line).
  cbn [app]. now rewrite app_nil_r.
Qed.

Lemma edges_are_classified_witness :
  exists lines,
    export_to_dot sample_fs sample_mods = Ok lines
    /\ edges lines = expected_edges sample_fs sample_mods.
Proof.
  eexists. split; [reflexivity|].
  apply (edges_are_classified sample_fs sample_mods). reflexivity.
Defined.

(** ** Placeholder nodes *)

Lemma py_in_of_In k (s : list pyval) :
  is_str k = true -> In k s -> py_in k s = true.
Proof.
  intros Hk Hin. unfold py_in. apply existsb_exists. exists k. split; auto.
  destruct k; try discriminate. simpl. apply String.eqb_refl.
Qed.

Lemma In_of_py_in k (s : list pyval) :
  is_str k = true -> py_in k s = true -> In k s.
Proof.
  intros Hk H. unfold py_in in H. apply existsb_exists in H.
  destruct H as (k' & Hin & E). destruct k; try discriminate.
  apply key_eqb_str_l in E. now subst.
Qed.

Lemma set_add_In s k x :
  is_str k = true -> (In x (set_add s k) <-> In x s \/ x = k).
Proof.
  intros Hk. unfold set_add. destruct (py_in k s) eqn:E.
  - split; [auto|]. intros [H| ->]; [exact H|]. now apply In_of_py_in.
  - rewrite in_app_iff. simpl. intuition.
Qed.

Lemma set_add_NoDup s k :
  is_str k = true -> NoDup s -> NoDup (set_add s k).
Proof.
  intros Hk Hs. unfold set_add. destruct (py_in k s) eqn:E; [exact Hs|].
  apply (Permutation_NoDup (Permutation_cons_append s k)).
  constructor; [|exact Hs].
  intros Hin. rewrite (py_in_of_In _ _ Hk Hin) in E. discriminate.
Qed.

Lemma placeholders_app kind l1 l2 :
  placeholders kind (l1 ++ l2)
  = placeholders kind l1 ++ placeholders kind l2.
Proof.
  induction l1 as [|x l1 IH]; simpl; [reflexivity|].
  destruct x; try exact IH.
  destruct (status_eqb kind0 kind); simpl; now rewrite IH.
Qed.

Lemma placeholders_none {A} (g : A -> line) (l : list A) kind :
  (forall x, match g x with Placeholder _ _ => False | _ => True end) ->
  placeholders kind (map g l) = [].
Proof.
  intros H. induction l as [|x l IH]; simpl; [reflexivity|].
  specialize (H x). destruct (g x); try exact IH. contradiction.
Qed.

Lemma placeholders_same kind (l : list pyval) :
  placeholders kind (map (fun dep => Placeholder dep kind) l) = l.
Proof.
  induction l as [|x l IH]; simpl; [reflexivity|].
  destruct kind; simpl; now rewrite IH.
Qed.

Lemma placeholders_other kind kind' (l : list pyval) :
  status_eqb kind' kind = false ->
  placeholders kind (map (fun dep => Placeholder dep kind') l) = [].
Proof.
  intros H. induction l as [|x l IH]; simpl; [reflexivity|].
  now rewrite H.
Qed.

Lemma edge_step_sets_ok fs mods mod_id st item st' :
  mods <> [] ->
  sets_ok st ->
  edge_step fs mods mod_id st item = Ok st' ->
  sets_ok st'.
Proof.
  intros Hne (N1 & N2 & R & O & S1 & S2 & P) H. destruct item as [dep m].
  destruct (edge_step_result _ _ _ _ _ _ _ Hne H) as [Ho Hs].
  assert (Hin : forall mod_id' dep' kind,
             In (Edge mod_id' dep' kind) (out st') <->
             In (Edge mod_id' dep' kind) (out st)
             \/ (mod_id' = mod_id /\ dep' = dep
                 /\ kind = edge_status fs mods (dep, m))).
  { intros. rewrite Ho, in_app_iff. simpl. split.
    - intros [A|[A|[]]]; [now left|]. inversion A; subst. right; auto.
    - intros [A|(-> & -> & ->)]; auto. }
  assert (P' : forall kind, placeholders kind (out st') = []).
  { intros kind. rewrite Ho, placeholders_app, P. reflexivity. }
  unfold sets_ok.
  destruct (edge_status fs mods (dep, m)).
  - destruct Hs as [-> ->].
    split; [exact N1|]. split; [exact N2|].
    split; [|split; [|split; [exact S1 | split; [exact S2 | exact P']]]].
    + intros d. split.
      * intros A. apply R in A. destruct A as (x & Hx). exists x.
        apply Hin. now left.
      * intros (x & Hx). apply Hin in Hx.
        destruct Hx as [Hx|(_ & _ & Hx)]; [|discriminate].
        apply R. eauto.
    + intros d. split.
      * intros A. apply O in A. destruct A as (x & Hx). exists x.
        apply Hin. now left.
      * intros (x & Hx). apply Hin in Hx.
        destruct Hx as [Hx|(_ & _ & Hx)]; [|discriminate].
        apply O. eauto.
  - destruct Hs as (Hstr & -> & ->).
    split; [now apply set_add_NoDup|]. split; [exact N2|].
    split; [|split; [|split; [|split; [exact S2 | exact P']]]].
    + intros d. rewrite set_add_In by assumption. split.
      * intros [A| ->].
        -- apply R in A. destruct A as (x & Hx). exists x. apply Hin.
           now left.
        -- exists mod_id. apply Hin. right; auto.
      * intros (x & Hx). apply Hin in Hx.
        destruct Hx as [Hx|(_ & -> & _)]; [|now right].
        left. apply R. eauto.
    + intros d. split.
      * intros A. apply O in A. destruct A as (x & Hx). exists x.
        apply Hin. now left.
      * intros (x & Hx). apply Hin in Hx.
        destruct Hx as [Hx|(_ & _ & Hx)]; [|discriminate].
        apply O. eauto.
    + intros d. rewrite set_add_In by assumption.
      intros [A| ->]; auto.
  - destruct Hs as (Hstr & -> & ->).
    split; [exact N1|]. split; [now apply set_add_NoDup|].
    split; [|split; [|split; [exact S1 | split; [|exact P']]]].
    + intros d. split.
      * intros A. apply R in A. destruct A as (x & Hx). exists x.
        apply Hin. now left.
      * intros (x & Hx). apply Hin in Hx.
        destruct Hx as [Hx|(_ & _ & Hx)]; [|discriminate].
        apply R. eauto.
    + intros d. rewrite set_add_In by assumption. split.
      * intros [A| ->].
        -- apply O in A. destruct A as (x & Hx). exists x. apply Hin.
           now left.
        -- exists mod_id. apply Hin. right; auto.
      * intros (x & Hx). apply Hin in Hx.
        destruct Hx as [Hx|(_ & -> & _)]; [|now right].
        left. apply O. eauto.
    + intros d. rewrite set_add_In by assumption.
      intros [A| ->]; auto.
Qed.

Lemma insert_by_perm {A} (le : A -> A -> bool) x l :
  Permutation (x :: l) (insert_by le x l).
Proof.
  induction l as [|y l IH]; simpl; [reflexivity|].
  destruct (le x y); [reflexivity|].
  rewrite perm_swap. now constructor.
Qed.

Lemma sort_by_perm {A} (le : A -> A -> bool) l :
  Permutation l (sort_by le l).
Proof.
  induction l as [|x l IH]; simpl; [reflexivity|].
  rewrite <- insert_by_perm. now constructor.
Qed.

Lemma py_sorted_perm s l : py_sorted s = Ok l -> Permutation s l.
Proof.
  unfold py_sorted.
  destruct (List.length s <=? 1)%nat; [intros H; inversion H; reflexivity|].
  destruct (forallb is_str s);
    [intros H; inversion H; apply sort_by_perm|].
  destruct (forallb is_num s);
    [intros H; inversion H; apply sort_by_perm | discriminate].
Qed.

Lemma initial_sets_ok (mods : dict descriptor) :
  sets_ok {| missing_required_set := []; missing_optional_set := [];
             out := header
                    ++ map (fun kd => ModNode (fst kd) (name (snd kd))) mods |}.
Proof.
  unfold sets_ok; cbn [missing_required_set missing_optional_set out].
  split; [constructor|]. split; [constructor|].
  assert (E : forall mod_id dep kind,
             ~ In (Edge mod_id dep kind)
                 (header
                  ++ map (fun kd => ModNode (fst kd) (name (snd kd))) mods)).
  { intros mod_id dep kind Hin. apply in_app_iff in Hin.
    destruct Hin as [Hin|Hin].
    - simpl in Hin. intuition discriminate.
    - apply in_map_iff in Hin. destruct Hin as (x & Hx & _). discriminate. }
  split; [|split; [|split; [|split]]].
  - intros dep. split; [intros [] | intros (x & Hx); now apply E in Hx].
  - intros dep. split; [intros [] | intros (x & Hx); now apply E in Hx].
  - intros dep [].
  - intros dep [].
  - intros kind. rewrite placeholders_app.
    rewrite (placeholders_none
               (fun kd => ModNode (fst kd) (name (snd kd))))
      by (intros; exact I).
    reflexivity.
Qed.

Lemma loops_sets_ok fs mods st :
  for_each mods
    {| missing_required_set := []; missing_optional_set := [];
       out := header
              ++ map (fun kd => ModNode (fst kd) (name (snd kd))) mods |}
    (fun st kd => for_each (depends (snd kd)) st (edge_step fs mods (fst kd)))
  = Ok st ->
  sets_ok st.
Proof.
  apply (for_each_inv sets_ok).
  - intros s kd s' Hkd Hs.
    apply (for_each_inv sets_ok); [|exact Hs].
    intros s1 item s1' _ Hs1 Hstep.
    eapply edge_step_sets_ok; eauto.
    intros ->. contradiction.
  - apply initial_sets_ok.
Qed.

(** C3 (amended).  When the graph builder returns, the output has, for each
    of the two kinds of missing dependency, exactly one placeholder
    declaration per identifier that is the target of an edge of that kind,
    and none for any other identifier: an identifier referenced by several
    mods never gets two placeholders of the same kind, and it gets one of
    each kind when one mod classifies it as required and another as
    optional. *)
Theorem one_placeholder_per_identifier_and_kind fs mods lines :
  export_to_dot fs mods = Ok lines ->
  NoDup (placeholders missing_required lines)
  /\ NoDup (placeholders missing_optional lines)
  /\ placeholders satisfied lines = []
  /\ (forall dep, In dep (placeholders missing_required lines) <->
                  exists mod_id, In (Edge mod_id dep missing_required) lines)
  /\ (forall dep, In dep (placeholders missing_optional lines) <->
                  exists mod_id, In (Edge mod_id dep missing_optional) lines).
Proof.
  intros H.
  destruct (export_to_dot_ok _ _ _ H) as (st & req & opt & Hl & Hr & Ho & ->).
  destruct (loops_sets_ok _ _ _ Hl) as (N1 & N2 & R & O & _ & _ & P).
  apply py_sorted_perm in Hr, Ho.
  assert (E : forall mod_id dep kind,
             In (Edge mod_id dep kind)
                (out st
                 ++ map (fun dep => Placeholder dep missing_required) req
                 ++ map (fun dep => Placeholder dep missing_optional) opt
                 ++ [Fixed "}"])
             <-> In (Edge mod_id dep kind) (out st)).
  { intros. rewrite !in_app_iff, !in_map_iff. simpl. split; [|auto].
    intros [A|[(x & A & _)|[(x & A & _)|[A|[]]]]];
      [exact A | discriminate ..]. }
  rewrite !placeholders_app, !P, !placeholders_same.
  rewrite !placeholders_other by reflexivity.
  cbn [placeholders app]. rewrite !app_nil_r.
  split; [exact (Permutation_NoDup Hr N1)|].
  split; [exact (Permutation_NoDup Ho N2)|].
  split; [reflexivity|].
  split; intros dep.
  - rewrite <- (Permutation_in' (eq_refl dep) Hr), R.
    split; intros (x & Hx); exists x; now apply E.
  - rewrite <- (Permutation_in' (eq_refl dep) Ho), O.
    split; intros (x & Hx); exists x; now apply E.
Qed.

Lemma one_placeholder_witness :
  exists lines,
    export_to_dot sample_fs sample_mods = Ok lines
    /\ NoDup (placeholders missing_required lines)
    /\ NoDup (placeholders missing_optional lines)
    /\ placeholders satisfied lines = []
    /\ (forall dep, In dep (placeholders missing_required lines) <->
                    exists mod_id, In (Edge mod_id dep missing_required) lines)
    /\ (forall dep, In dep (placeholders missing_optional lines) <->
                    exists mod_id, In (Edge mod_id dep missing_optional) lines).
Proof.
  eexists. split; [reflexivity|].
  apply (one_placeholder_per_identifier_and_kind sample_fs sample_mods).
  reflexivity.
Defined.

(** C3 as stated fails: the folder holding [a.jar], which requires [x], and
    [b.jar], which suggests [x], scans to [sample_mods], and the output for
    it declares the placeholder node [x] twice. *)
Lemma identifier_with_two_placeholders :
  scan_mod_folder sample_fs ["a.jar"; "b.jar"] = Ok sample_mods
  /\ exists lines,
       export_to_dot sample_fs sample_mods = Ok lines
       /\ List.length
            (filter (fun l => match l with
                              | Placeholder (PStr "x") _ => true
                              | _ => false
                              end) lines) = 2%nat.
Proof.
  split; [reflexivity|]. eexists. split; reflexivity.
Qed.

(** ** The graph builder returns on registries of string identifiers *)

Lemma for_each_returns {A S} (P : S -> Prop) (l : list A) body :
  (forall s x, In x l -> P s -> exists s', body s x = Ok s' /\ P s') ->
  forall s, P s -> exists s', for_each l s body = Ok s' /\ P s'.
Proof.
  induction l as [|x l IH]; simpl; intros Hb s Hs.
  - exists s. auto.
  - destruct (Hb s x (or_introl eq_refl) Hs) as (s1 & E & H1).
    rewrite E. simpl.
    apply IH; [|exact H1].
    intros s0 x0 Hin. apply Hb. now right.
Qed.

Lemma any_embedded_returns fs ms dep :
  (forall m, In m ms -> _path m <> None) ->
  is_str dep = true ->
  exists b, any_embedded fs ms dep = Ok b.
Proof.
  intros Hp Hs. destruct dep as [| | |s| |]; try discriminate.
  induction ms as [|m ms IH]; simpl; [eauto|].
  unfold get_path.
  destruct (_path m) as [p|] eqn:E;
    [|exfalso; apply (Hp m); [now left | exact E]].
  simpl. rewrite is_dependency_embedded_eq. simpl.
  destruct (match ZipFile_path fs p with Ok _ => _ | Raise _ => _ end);
    [eauto|].
  apply IH. intros m' Hin. apply Hp. now right.
Qed.

Lemma edge_step_returns fs mods mod_id st dep m :
  (forall d, In d (values mods) -> _path d <> None) ->
  is_str dep = true ->
  exists st', edge_step fs mods mod_id st (dep, m) = Ok st'.
Proof.
  intros Hp Hs. unfold edge_step.
  destruct (py_in dep (keys mods)); simpl; [eauto|].
  destruct (any_embedded_returns fs (values mods) dep Hp Hs) as (b & ->).
  simpl. destruct b; simpl; [eauto|].
  destruct (truthy (required m)); eauto.
Qed.

Lemma py_sorted_returns s :
  (forall x, In x s -> is_str x = true) -> exists l, py_sorted s = Ok l.
Proof.
  intros H. unfold py_sorted.
  destruct (List.length s <=? 1)%nat; [eauto|].
  assert (forallb is_str s = true) as -> by now apply forallb_forall.
  eauto.
Qed.

(** On a registry whose descriptors all carry a source location and whose
    dependency identifiers are all strings, the graph builder returns. *)
Lemma export_to_dot_returns fs mods :
  (forall k d, In (k, d) mods ->
     _path d <> None
     /\ forall dep, In dep (keys (depends d)) -> is_str dep = true) ->
  exists lines, export_to_dot fs mods = Ok lines.
Proof.
  intros Hw.
  assert (Hp : forall d, In d (values mods) -> _path d <> None).
  { intros d Hin. unfold values in Hin. apply in_map_iff in Hin.
    destruct Hin as ([k d'] & <- & Hin). apply (Hw k d' Hin). }
  unfold export_to_dot.
  destruct (for_each_returns sets_ok mods
              (fun st kd =>
                 for_each (depends (snd kd)) st (edge_step fs mods (fst kd))))
    with (s := {| missing_required_set := []; missing_optional_set := [];
                  out := header
                         ++ map (fun kd => ModNode (fst kd) (name (snd kd)))
                                mods |})
    as (st & E & Hst).
  - intros s [k d] Hin Hs. cbn [fst snd].
    apply (for_each_returns sets_ok); [|exact Hs].
    intros s1 [dep m] Hdep Hs1.
    destruct (edge_step_returns fs mods k s1 dep m Hp) as (s1' & E1).
    { apply (Hw k d Hin). unfold keys. apply in_map_iff.
      exists (dep, m); auto. }
    exists s1'. split; [exact E1|].
    eapply edge_step_sets_ok; eauto. intros ->. contradiction.
  - apply initial_sets_ok.
  - rewrite E. simpl.
    destruct Hst as (_ & _ & _ & _ & S1 & S2 & _).
    destruct (py_sorted_returns _ S1) as (req & ->).
    destruct (py_sorted_returns _ S2) as (opt & ->).
    simpl. eauto.
Qed.

(** ** The scenarios of the specification, run on the embedding *)

(** A hard dependency bundled as a nested archive whose manifest declares
    its identifier, in another letter case, is found by the detector; the
    unreadable member before it does not end the scan. *)
Example bundled_dependency_is_embedded :
  is_dependency_embedded (disk [("c.jar", sample_c)]) "c.jar" (PStr "libX")
  = Ok true.
Proof. reflexivity. Qed.

Example bundled_dependency_edge_is_satisfied :
  (mods <- scan_mod_folder (disk [("c.jar", sample_c)]) ["c.jar"] ;;
   export_to_dot (disk [("c.jar", sample_c)]) mods)
  = Ok (header
        ++ [ModNode (PStr "c") (PStr "Mod C");
            Edge (PStr "c") (PStr "libX") satisfied;
            Fixed "}"]).
Proof. reflexivity. Qed.

(** A file that is not an archive, and an archive without any of the three
    manifests, are left out of the registry. *)
Example unrecognised_files_are_skipped :
  scan_mod_folder
    (disk [("junk.jar", not_decodable);
           ("empty.jar", jar_file [("README", Some not_decodable)])])
    ["junk.jar"; "empty.jar"; "gone.jar"]
  = Ok [].
Proof. reflexivity. Qed.

(** The excluded identifier [Fabric] of [a.jar] is dropped, in any letter
    case, and an excluded mod is not registered. *)
Example excluded_identifiers_are_dropped :
  scan_mod_folder
    (disk [("a.jar", sample_a);
           ("loader.jar",
            jar_file [("fabric.mod.json",
                       Some (json_file (PDict [("id", PStr "FabricLoader")])))])])
    ["a.jar"; "loader.jar"]
  = Ok [(PStr "a", descriptor_a)].
Proof. reflexivity. Qed.

(** * Further properties of the code *)

(** ** Keys of the mappings the program builds *)

Lemma py_in_false_iff k (l : list pyval) :
  py_in k l = false <-> forall k', In k' l -> key_eqb k' k = false.
Proof.
  unfold py_in. induction l as [|x l IH]; simpl.
  - split; [intros _ k' [] | reflexivity].
  - rewrite orb_false_iff, IH. split.
    + intros [A B] k' [<-|H]; auto.
    + intros H. split; [apply H; now left | intros k' Hk; apply H; now right].
Qed.

Lemma keys_dict_set {V} (d : dict V) k v :
  keys (dict_set d k v) = if py_in k (keys d) then keys d else keys d ++ [k].
Proof.
  unfold keys, py_in. induction d as [|[k0 v0] d IH]; simpl; [reflexivity|].
  destruct (key_eqb k0 k); simpl; [reflexivity|].
  rewrite IH. destruct (existsb _ _); reflexivity.
Qed.

Lemma keys_unique_snoc (l : list pyval) k :
  keys_unique l = true -> py_in k l = false -> keys_unique (l ++ [k]) = true.
Proof.
  induction l as [|x l IH]; simpl; intros Hu Hk; [reflexivity|].
  apply andb_true_iff in Hu. destruct Hu as [Hx Hl].
  unfold py_in in Hk. simpl in Hk. apply orb_false_iff in Hk.
  destruct Hk as [Hxk Hk].
  apply andb_true_iff. split; [|apply IH; assumption].
  apply negb_true_iff. apply negb_true_iff in Hx.
  apply py_in_false_iff. intros k' Hin. apply in_app_iff in Hin.
  destruct Hin as [Hin|[<-|[]]].
  - revert k' Hin. now apply py_in_false_iff.
  - now rewrite key_eqb_sym.
Qed.

Lemma dict_set_keys_ok {V} (d : dict V) k v :
  hashable k = true -> keys_ok d -> keys_ok (dict_set d k v).
Proof.
  intros Hk [Hu Hh]. unfold keys_ok. rewrite keys_dict_set.
  destruct (py_in k (keys d)) eqn:E; [split; assumption|].
  split; [now apply keys_unique_snoc|].
  intros k' Hin. apply in_app_iff in Hin.
  destruct Hin as [Hin|[<-|[]]]; auto.
Qed.

Lemma keys_ok_nil : keys_ok ([] : dict meta).
Proof. split; [reflexivity | intros k []]. Qed.

Lemma setitem_keys_ok {V} (d d' : dict V) k v :
  keys_ok d -> setitem d k v = Ok d' -> keys_ok d'.
Proof.
  unfold setitem. intros Hd. destruct (hashable k) eqn:E; [|discriminate].
  intros H; inversion H; subst. now apply dict_set_keys_ok.
Qed.

Lemma add_all_keys_ok ks r d d' :
  keys_ok d -> add_all d ks r = Ok d' -> keys_ok d'.
Proof.
  unfold add_all. intros Hd.
  apply (for_each_inv (fun acc : dict meta => keys_ok acc)); [|exact Hd].
  intros acc x acc' _ Hacc. now apply setitem_keys_ok.
Qed.

Lemma add_dep_keys_ok items d d' :
  keys_ok d -> for_each items d add_dep = Ok d' -> keys_ok d'.
Proof.
  intros Hd.
  apply (for_each_inv (fun acc : dict meta => keys_ok acc)); [|exact Hd].
  intros acc x acc' _ Hacc Hstep. unfold add_dep in Hstep.
  bind_inv Hstep. eapply setitem_keys_ok; eauto.
Qed.

Lemma block_keys_ok s jar p d :
  block s jar p = Ok (Return (Some d)) -> keys_ok (depends d).
Proof.
  destruct s; simpl; intros H.
  - unfold fabric_block in H. bind_inv H. inversion H; subst; simpl.
    eauto 10 using add_all_keys_ok, keys_ok_nil.
  - unfold forge_block in H. bind_inv H; [discriminate H|].
    bind_inv H. inversion H; subst; simpl.
    eauto using add_dep_keys_ok, keys_ok_nil.
  - unfold mcmod_block in H. bind_inv H.
    destruct a0 as [| | | |[|entry l]|]; try discriminate H.
    bind_inv H. inversion H; subst; simpl.
    eauto 10 using add_all_keys_ok, keys_ok_nil.
Qed.

(** Every entry of a mapping with hashable, unique keys is found under its
    key. *)
Lemma keys_ok_lookup {V} (d : dict V) k v :
  keys_ok d -> In (k, v) d -> dict_get d k = Some v.
Proof.
  induction d as [|[k0 v0] d IH]; intros [Hu Hh] Hin; [contradiction|].
  simpl in Hu. apply andb_true_iff in Hu. destruct Hu as [H0 Hu].
  apply negb_true_iff in H0.
  simpl. destruct Hin as [Heq|Hin].
  - inversion Heq; subst.
    rewrite key_eqb_refl_hashable; [reflexivity|]. apply Hh. now left.
  - assert (key_eqb k0 k = false) as ->.
    { rewrite key_eqb_sym.
      apply (proj1 (py_in_false_iff k0 (keys d)) H0).
      unfold keys. apply in_map_iff. exists (k, v); auto. }
    apply IH; [|exact Hin].
    split; [exact Hu | intros k' Hk; apply Hh; now right].
Qed.

(** ** Where a descriptor comes from *)

Lemma tag_path p r d :
  tag p r = Ok (Return (Some d)) -> _path d = Some p.
Proof.
  destruct r as [[[d'|]|]|]; simpl; try discriminate.
  intros H; inversion H; reflexivity.
Qed.

Lemma block_path s jar p d :
  block s jar p = Ok (Return (Some d)) -> _path d = Some p.
Proof.
  destruct s; simpl;
    rewrite ?fabric_block_tag, ?forge_block_tag, ?mcmod_block_tag;
    apply tag_path.
Qed.

Lemma extract_from_block fs jar_path d :
  extract_mod_metadata fs jar_path = Some d ->
  exists jar s,
    ZipFile_path fs jar_path = Ok jar
    /\ str_in (manifest_path s) (namelist jar) = true
    /\ block s jar jar_path = Ok (Return (Some d)).
Proof.
  intros H.
  destruct (ZipFile_path fs jar_path) as [jar|] eqn:Hz.
  2:{ unfold extract_mod_metadata in H. rewrite Hz in H. discriminate. }
  rewrite (extract_mod_metadata_eq fs jar_path jar Hz) in H.
  exists jar.
  assert (T : forall s o,
             try_pass (block s jar jar_path) = Return o ->
             block s jar jar_path = Ok (Return o)).
  { intros s o. unfold try_pass.
    destruct (block s jar jar_path) as [[o'|]|]; try discriminate.
    intros E; inversion E; reflexivity. }
  destruct (str_in (manifest_path SchemaA) (namelist jar)) eqn:HA;
    [destruct (try_pass (block SchemaA jar jar_path)) as [o|] eqn:EA;
     [subst o; exists SchemaA; auto|] |];
    (destruct (str_in (manifest_path SchemaB) (namelist jar)) eqn:HB;
     [destruct (try_pass (block SchemaB jar jar_path)) as [o|] eqn:EB;
      [subst o; exists SchemaB; auto|] |]);
    (destruct (str_in (manifest_path SchemaC) (namelist jar)) eqn:HC;
     [destruct (try_pass (block SchemaC jar jar_path)) as [o|] eqn:EC;
      [subst o; exists SchemaC; auto|] |]);
    discriminate.
Qed.

(** X1.  A descriptor returned by [extract_mod_metadata] carries the path
    it was read from as its source location, and it is the descriptor that
    the block of one of the three schemas returned on the archive at that
    path, the manifest of that schema being a member of the archive: from a
    file that is not an archive, or an archive with none of the three
    manifests, nothing is extracted. *)
Theorem extracted_descriptor_provenance fs jar_path d :
  extract_mod_metadata fs jar_path = Some d ->
  _path d = Some jar_path
  /\ exists jar s,
       ZipFile_path fs jar_path = Ok jar
       /\ str_in (manifest_path s) (namelist jar) = true
       /\ block s jar jar_path = Ok (Return (Some d)).
Proof.
  intros H. destruct (extract_from_block _ _ _ H) as (jar & s & Hz & Hs & Hb).
  split; [eapply block_path; eauto|].
  exists jar, s. auto.
Qed.

Lemma extracted_descriptor_provenance_witness :
  _path descriptor_k = Some "k.jar"
  /\ exists jar s,
       ZipFile_path (disk [("k.jar", sample_k)]) "k.jar" = Ok jar
       /\ str_in (manifest_path s) (namelist jar) = true
       /\ block s jar "k.jar" = Ok (Return (Some descriptor_k)).
Proof.
  apply (extracted_descriptor_provenance (disk [("k.jar", sample_k)])).
  reflexivity.
Defined.

Lemma extract_keys_ok fs jar_path d :
  extract_mod_metadata fs jar_path = Some d -> keys_ok (depends d).
Proof.
  intros H. destruct (extract_from_block _ _ _ H) as (jar & s & _ & _ & Hb).
  eapply block_keys_ok; eauto.
Qed.

(** X2.  The depends mapping of every extracted descriptor has hashable
    keys, no two of them equal as dictionary keys, and looking up the key of
    any of its entries gives back the flag of that entry. *)
Theorem extracted_depends_keys_unique fs jar_path d :
  extract_mod_metadata fs jar_path = Some d ->
  keys_unique (keys (depends d)) = true
  /\ (forall k, In k (keys (depends d)) -> hashable k = true)
  /\ (forall k m, In (k, m) (depends d) -> dict_get (depends d) k = Some m).
Proof.
  intros H. pose proof (extract_keys_ok _ _ _ H) as K.
  destruct K as [Hu Hh]. repeat split; auto.
  intros k m Hin. apply keys_ok_lookup; [split; assumption | exact Hin].
Qed.

Lemma extracted_depends_keys_unique_witness :
  keys_unique (keys (depends descriptor_f)) = true
  /\ (forall k, In k (keys (depends descriptor_f)) -> hashable k = true)
  /\ (forall k m, In (k, m) (depends descriptor_f) ->
                  dict_get (depends descriptor_f) k = Some m).
Proof.
  apply (extracted_depends_keys_unique
           (disk [("f.jar", jar_file members_f)]) "f.jar").
  reflexivity.
Defined.

(** ** Manifests that yield nothing *)

(** X3.  When the Schema A block does not return (its manifest is not a
    member, or its handling raises) and the Schema B manifest decodes to a
    table whose [mods] field is absent or falsy, the extractor returns
    absent at once: a Schema C manifest in the same archive is not looked
    at. *)
Theorem forge_without_mods_is_absent fs jar_path jar f data :
  ZipFile_path fs jar_path = Ok jar ->
  (str_in "fabric.mod.json" (namelist jar) = false
   \/ exists e, fabric_block jar jar_path = Raise e) ->
  zip_read jar "META-INF/mods.toml" = Ok f ->
  as_toml f = Some (PDict data) ->
  truthy (match assoc "mods" data with Some v => v | None => PList [] end)
  = false ->
  extract_mod_metadata fs jar_path = None.
Proof.
  intros Hz HA Hr Hj Hm.
  rewrite (extract_mod_metadata_eq fs jar_path jar Hz). simpl manifest_path.
  assert ((if str_in "fabric.mod.json" (namelist jar)
           then try_pass (block SchemaA jar jar_path) else Next)
          = (Next : flow (option descriptor))) as ->.
  { destruct HA as [->|[e He]]; [reflexivity|].
    simpl block. rewrite He. now destruct (str_in _ _). }
  rewrite (zip_read_in _ _ _ Hr). simpl block.
  unfold forge_block. rewrite Hr. simpl.
  unfold toml_loads. rewrite Hj. simpl. rewrite Hm. reflexivity.
Qed.

Lemma forge_without_mods_witness :
  extract_mod_metadata (disk [("e.jar", jar_file members_e)]) "e.jar" = None.
Proof.
  apply (forge_without_mods_is_absent (disk [("e.jar", jar_file members_e)])
           "e.jar" members_e
           (toml_file (PDict [("mods", PList [])])) [("mods", PList [])]);
    try reflexivity.
  left. reflexivity.
Defined.

(** X4.  From an archive whose only manifest is [mcmod.info], nothing is
    extracted unless the document is a non-empty list: an [mcmod.info] that
    decodes to an object, to an empty list or to any other value yields
    absent. *)
Theorem mcmod_not_a_list_is_absent fs jar_path jar f data :
  ZipFile_path fs jar_path = Ok jar ->
  str_in "fabric.mod.json" (namelist jar) = false ->
  str_in "META-INF/mods.toml" (namelist jar) = false ->
  zip_read jar "mcmod.info" = Ok f ->
  as_json f = Some data ->
  (forall entry rest, data <> PList (entry :: rest)) ->
  extract_mod_metadata fs jar_path = None.
Proof.
  intros Hz HA HB Hr Hj Hd.
  rewrite (extract_mod_metadata_eq fs jar_path jar Hz). simpl manifest_path.
  rewrite HA, HB, (zip_read_in _ _ _ Hr). simpl block.
  unfold mcmod_block. rewrite Hr. simpl.
  unfold json_load. rewrite Hj. simpl.
  destruct data as [| | | |[|entry rest]|]; try reflexivity.
  exfalso. now apply (Hd entry rest).
Qed.

Lemma mcmod_not_a_list_witness :
  extract_mod_metadata (disk [("v2.jar", jar_file members_v2)]) "v2.jar"
  = None.
Proof.
  apply (mcmod_not_a_list_is_absent (disk [("v2.jar", jar_file members_v2)])
           "v2.jar" members_v2
           (json_file (PDict [("modListVersion", PInt 2);
                              ("modList", PList [PDict manifest_legacy])]))
           (PDict [("modListVersion", PInt 2);
                   ("modList", PList [PDict manifest_legacy])]));
    try reflexivity.
  intros entry rest. discriminate.
Defined.

(** ** The exclusion test *)

Lemma str_in_In s l : str_in s l = true <-> In s l.
Proof.
  unfold str_in. rewrite existsb_exists. split.
  - intros (x & Hin & E). apply String.eqb_eq in E. now subst.
  - intros H. exists s. split; [exact H | apply String.eqb_refl].
Qed.




(** ** The filter of the dependencies *)

Lemma should_ignore_lowerable d :
  lowerable d = true ->
  exists ig, should_ignore d = Ok ig /\ truthy ig = excluded d.
Proof.
  unfold lowerable, should_ignore.
  destruct d as [|b|z|s|l|t]; simpl; intros H.
  - eauto.
  - destruct b; [discriminate | eauto].
  - destruct (z =? 0)%Z eqn:E; simpl in *; [|discriminate].
    eexists; split; [reflexivity|]. simpl. now rewrite E.
  - destruct (s =? "") eqn:E; simpl; [|eauto].
    apply String.eqb_eq in E. subst s. eauto.
  - destruct l; [eauto | discriminate].
  - destruct t; [eauto | discriminate].
Qed.

Lemma dict_set_fresh {V} (acc : dict V) d m :
  (forall k', In k' (keys acc) -> key_eqb k' d = false) ->
  dict_set acc d m = acc ++ [(d, m)].
Proof.
  induction acc as [|[k0 v0] acc IH]; simpl; intros H; [reflexivity|].
  rewrite (H k0) by now left.
  rewrite IH; [reflexivity|]. intros k' Hk. apply H. now right.
Qed.

Lemma keys_unique_app (a b : list pyval) :
  keys_unique (a ++ b) = true ->
  forall x y, In x a -> In y b -> key_eqb y x = false.
Proof.
  induction a as [|k a IH]; simpl; intros Hu x y Hx Hy; [contradiction|].
  apply andb_true_iff in Hu. destruct Hu as [Hk Hu].
  destruct Hx as [<-|Hx]; [|eapply IH; eauto].
  apply negb_true_iff in Hk.
  apply (proj1 (py_in_false_iff k (a ++ b)) Hk).
  apply in_app_iff. now right.
Qed.

Lemma filter_depends_loop (deps : dict meta) : forall l pre acc,
  deps = pre ++ l ->
  keys_ok deps ->
  (forall k, In k (keys l) -> lowerable k = true) ->
  (forall k', In k' (keys acc) -> In k' (keys pre)) ->
  for_each (keys l) acc
    (fun acc d =>
       ig <- should_ignore d ;;
       if negb (truthy ig) then
         match dict_get deps d with
         | Some m => setitem acc d m
         | None => Raise KeyError
         end
       else Ok acc)
  = Ok (acc ++ filter (fun kv => negb (excluded (fst kv))) l).
Proof.
  induction l as [|[d m] l IH]; intros pre acc Hd Hk Hl Hacc.
  - simpl. now rewrite app_nil_r.
  - change (keys ((d, m) :: l)) with (d :: keys l). cbn [for_each].
    destruct (should_ignore_lowerable d) as (ig & -> & Hig).
    { apply Hl. now left. }
    cbn [bind filter fst]. rewrite Hig.
    assert (Hd' : deps = (pre ++ [(d, m)]) ++ l)
      by (rewrite <- app_assoc; exact Hd).
    assert (Hl' : forall k, In k (keys l) -> lowerable k = true)
      by (intros k Hin; apply Hl; now right).
    destruct (excluded d) eqn:Ex; cbn [negb].
    + apply (IH (pre ++ [(d, m)]) acc Hd' Hk Hl').
      intros k' Hin. unfold keys. rewrite map_app. apply in_app_iff.
      left. now apply Hacc.
    + rewrite (keys_ok_lookup deps d m Hk)
        by (rewrite Hd; apply in_app_iff; right; now left).
      unfold setitem at 1.
      assert (hashable d = true) as ->.
      { apply (proj2 Hk). rewrite Hd. unfold keys. rewrite map_app.
        apply in_app_iff. right. now left. }
      rewrite dict_set_fresh.
      2:{ intros k' Hin. rewrite key_eqb_sym.
          apply (keys_unique_app (keys pre) (keys ((d, m) :: l))).
          - destruct Hk as [Hu _]. rewrite Hd in Hu. unfold keys in *.
            now rewrite map_app in Hu.
          - now apply Hacc.
          - now left. }
      cbv beta iota. cbn [bind].
      rewrite (IH (pre ++ [(d, m)]) (acc ++ [(d, m)]) Hd' Hk Hl').
      * now rewrite <- app_assoc.
      * intros k' Hin. unfold keys in *. rewrite map_app in *.
        apply in_app_iff in Hin. apply in_app_iff.
        destruct Hin as [Hin|Hin]; [left; now apply Hacc | now right].
Qed.

Lemma filter_depends_eq (deps : dict meta) :
  keys_ok deps ->
  (forall k, In k (keys deps) -> lowerable k = true) ->
  filter_depends deps
  = Ok (filter (fun kv => negb (excluded (fst kv))) deps).
Proof.
  intros Hk Hl. unfold filter_depends.
  apply (filter_depends_loop deps deps [] []); auto.
Qed.

(** X6.  On a mapping with hashable, unique keys whose truthy keys are
    strings (any mapping extracted from a manifest of string identifiers),
    the filter of [scan_mod_folder] returns exactly the entries whose key
    does not match the exclusion set, in their original order and with their
    flags unchanged. *)
Theorem filter_depends_is_a_filter (deps : dict meta) :
  keys_ok deps ->
  (forall k, In k (keys deps) -> lowerable k = true) ->
  filter_depends deps
  = Ok (filter (fun kv => negb (excluded (fst kv))) deps).
Proof.
  apply filter_depends_eq.
Qed.

Lemma filter_depends_witness :
  filter_depends depends_a
  = Ok (filter (fun kv => negb (excluded (fst kv))) depends_a).
Proof.
  apply (filter_depends_is_a_filter depends_a).
  - split; [reflexivity|].
    intros k [<-|[<-|[]]]; reflexivity.
  - intros k [<-|[<-|[]]]; reflexivity.
Defined.

(** ** The registry built by the scanner *)

Lemma extract_path fs jar_path d :
  extract_mod_metadata fs jar_path = Some d -> _path d = Some jar_path.
Proof.
  intros H. destruct (extract_from_block _ _ _ H) as (jar & s & _ & _ & Hb).
  eapply block_path; eauto.
Qed.

Lemma keys_unique_NoDup (l : list pyval) :
  keys_unique l = true -> (forall k, In k l -> hashable k = true) -> NoDup l.
Proof.
  induction l as [|k l IH]; simpl; intros Hu Hh; [constructor|].
  apply andb_true_iff in Hu. destruct Hu as [Hk Hu].
  apply negb_true_iff in Hk.
  constructor; [|apply IH; auto].
  intros Hin.
  assert (E : key_eqb k k = true) by (apply key_eqb_refl_hashable; auto).
  rewrite (proj1 (py_in_false_iff k l) Hk k Hin) in E. discriminate.
Qed.

Lemma should_ignore_truthy_str s :
  truthy (PStr s) = true ->
  should_ignore (PStr s) = Ok (PBool (excluded (PStr s))).
Proof.
  unfold should_ignore. intros ->. reflexivity.
Qed.

(** What a step of the scan does when it registers the archive. *)
Lemma scan_step_cases fs mods jar mods' :
  scan_step fs mods jar = Ok mods' ->
  mods' = mods
  \/ exists info s deps,
       extract_mod_metadata fs jar = Some info
       /\ id info = PStr s /\ s <> ""
       /\ excluded (id info) = false
       /\ filter_depends (depends info) = Ok deps
       /\ mods' = dict_set mods (id info)
                    {| id := id info; name := name info; depends := deps;
                       _path := _path info |}.
Proof.
  unfold scan_step. intros H.
  destruct (extract_mod_metadata fs jar) as [info|] eqn:Hx;
    [|inversion H; now left].
  destruct (truthy (id info)) eqn:T; [|inversion H; now left].
  destruct (should_ignore (id info)) as [ig|] eqn:Hig; simpl in H;
    [|discriminate].
  destruct (truthy ig) eqn:Tig; simpl in H; [inversion H; now left|].
  destruct (filter_depends (depends info)) as [deps|] eqn:Hf; simpl in H;
    [|discriminate].
  unfold setitem in H. destruct (hashable (id info)); [|discriminate].
  inversion H; subst; clear H.
  destruct (should_ignore_truthy _ _ T Hig) as (s & Hid & Hne).
  right. exists info, s, deps. repeat split; auto.
  eapply should_ignore_falsy; eauto.
Qed.

(** X7.  The registry returned by the scanner has no two entries under the
    same key, and each entry stems from an archive of the folder: its key
    and id are the identifier extracted from that archive, its name is the
    extracted name, its source location is the path of that archive, and its
    depends mapping is the filtered mapping of the extracted descriptor. *)
Theorem registry_entries_come_from_archives fs jars mods :
  scan_mod_folder fs jars = Ok mods ->
  NoDup (keys mods)
  /\ forall k d, In (k, d) mods ->
       exists jar info,
         In jar jars
         /\ extract_mod_metadata fs jar = Some info
         /\ k = id info /\ id d = id info /\ name d = name info
         /\ _path d = Some jar
         /\ filter_depends (depends info) = Ok (depends d).
Proof.
  intros H.
  assert (Q : keys_ok mods
              /\ forall k d, In (k, d) mods ->
                   exists jar info,
                     In jar jars
                     /\ extract_mod_metadata fs jar = Some info
                     /\ k = id info /\ id d = id info /\ name d = name info
                     /\ _path d = Some jar
                     /\ filter_depends (depends info) = Ok (depends d)).
  { revert H. unfold scan_mod_folder.
    apply (for_each_inv
             (fun m : dict descriptor =>
                keys_ok m
                /\ forall k d, In (k, d) m ->
                     exists jar info,
                       In jar jars
                       /\ extract_mod_metadata fs jar = Some info
                       /\ k = id info /\ id d = id info
                       /\ name d = name info
                       /\ _path d = Some jar
                       /\ filter_depends (depends info) = Ok (depends d))).
    - intros m jar m' Hjar [Hk Hm] Hstep.
      destruct (scan_step_cases _ _ _ _ Hstep)
        as [->|(info & s & deps & Hx & Hid & Hne & Hex & Hf & ->)];
        [split; assumption|].
      split.
      + apply dict_set_keys_ok; [rewrite Hid; reflexivity | exact Hk].
      + intros k d Hin.
        destruct (dict_set_In _ _ _ _ _ Hin) as [Hold|[-> Hkey]];
          [now apply Hm|].
        exists jar, info. cbn [id name depends _path].
        repeat split; auto.
        * destruct Hkey as [->|Hkey]; [reflexivity|].
          rewrite Hid in *. now apply key_eqb_str_l.
        * eapply extract_path; eauto.
    - split; [split; [reflexivity | intros k []] | intros k d []]. }
  destruct Q as [[Hu Hh] Hm]. split; [|exact Hm].
  now apply keys_unique_NoDup.
Qed.

Lemma registry_entries_witness :
  NoDup (keys sample_mods)
  /\ forall k d, In (k, d) sample_mods ->
       exists jar info,
         In jar ["a.jar"; "b.jar"]
         /\ extract_mod_metadata sample_fs jar = Some info
         /\ k = id info /\ id d = id info /\ name d = name info
         /\ _path d = Some jar
         /\ filter_depends (depends info) = Ok (depends d).
Proof.
  apply (registry_entries_come_from_archives sample_fs ["a.jar"; "b.jar"]).
  reflexivity.
Defined.

Lemma scan_steps_keep_lookup fs k l : forall m m',
  is_str k = true ->
  (forall jar info, In jar l -> extract_mod_metadata fs jar = Some info ->
                    id info <> k) ->
  for_each l m (scan_step fs) = Ok m' ->
  dict_get m' k = dict_get m k.
Proof.
  intros m m' Hk Hother H.
  revert H.
  apply (for_each_inv (fun m0 : dict descriptor => dict_get m0 k = dict_get m k));
    [|reflexivity].
  intros m0 jar m1 Hjar Hm0 Hstep.
  destruct (scan_step_cases _ _ _ _ Hstep)
    as [->|(info & s & deps & Hx & Hid & Hne & Hex & Hf & ->)];
    [exact Hm0|].
  rewrite dict_get_set.
  destruct (key_eqb (id info) k) eqn:E; [|exact Hm0].
  exfalso. apply (Hother jar info Hjar Hx).
  rewrite Hid in *. apply key_eqb_str in E. congruence.
Qed.

(** X8.  When several archives of the folder declare the same identifier,
    the registry holds the last of them: after an archive with a truthy,
    not excluded identifier, followed only by archives that declare other
    identifiers (or none), looking that identifier up in the registry gives
    the descriptor of that archive. *)
Theorem registry_keeps_last_archive fs l1 jar l2 mods info :
  scan_mod_folder fs (l1 ++ jar :: l2) = Ok mods ->
  extract_mod_metadata fs jar = Some info ->
  truthy (id info) = true ->
  excluded (id info) = false ->
  (forall jar' info', In jar' l2 ->
     extract_mod_metadata fs jar' = Some info' -> id info' <> id info) ->
  exists d,
    dict_get mods (id info) = Some d
    /\ id d = id info /\ name d = name info /\ _path d = Some jar
    /\ filter_depends (depends info) = Ok (depends d).
Proof.
  unfold scan_mod_folder. intros H Hx T Hex Hother.
  rewrite for_each_app in H.
  destruct (for_each l1 [] (scan_step fs)) as [m1|]; [|discriminate].
  cbn [bind for_each] in H.
  destruct (scan_step fs m1 jar) as [m2|] eqn:Hstep; [|discriminate].
  cbn [bind] in H.
  assert (Hm2 : exists s deps,
             id info = PStr s
             /\ filter_depends (depends info) = Ok deps
             /\ m2 = dict_set m1 (id info)
                       {| id := id info; name := name info; depends := deps;
                          _path := _path info |}).
  { unfold scan_step in Hstep. rewrite Hx, T in Hstep.
    destruct (id info) as [| | |s| |] eqn:Hid; try discriminate T;
      try (unfold should_ignore in Hstep; rewrite T in Hstep;
           discriminate Hstep).
    rewrite (should_ignore_truthy_str s T), Hex in Hstep.
    cbn [bind truthy negb] in Hstep.
    destruct (filter_depends (depends info)) as [deps|];
      cbn [bind] in Hstep; [|discriminate].
    unfold setitem in Hstep. cbn [hashable] in Hstep.
    inversion Hstep; subst. exists s, deps. auto. }
  destruct Hm2 as (s & deps & Hid & Hf & ->).
  eexists. split.
  - rewrite (scan_steps_keep_lookup fs (id info) l2 _ _) with (3 := H).
    + rewrite dict_get_set, Hid. simpl. rewrite String.eqb_refl. reflexivity.
    + rewrite Hid. reflexivity.
    + exact Hother.
  - cbn [id name depends _path]. repeat split; auto.
    eapply extract_path; eauto.
Qed.

Lemma registry_keeps_last_witness :
  exists d,
    dict_get [(PStr "a", descriptor_a2); (PStr "b", descriptor_b)]
             (id descriptor_a2) = Some d
    /\ id d = id descriptor_a2 /\ name d = name descriptor_a2
    /\ _path d = Some "a2.jar"
    /\ filter_depends (depends descriptor_a2) = Ok (depends d).
Proof.
  apply (registry_keeps_last_archive sample_fs2 ["a.jar"] "a2.jar"
           ["b.jar"; "junk.jar"]); try reflexivity.
  intros jar' info' [<-|[<-|[]]]; simpl; intros H; inversion H; subst;
    discriminate.
Defined.

Lemma scan_step_left_out fs jar mods :
  left_out fs jar = true -> scan_step fs mods jar = Ok mods.
Proof.
  unfold left_out, scan_step.
  destruct (extract_mod_metadata fs jar) as [info|]; [|reflexivity].
  destruct (truthy (id info)) eqn:T; [|reflexivity].
  cbn [negb orb]. intros Hex.
  destruct (id info) as [| | |s| |]; try discriminate Hex.
  rewrite (should_ignore_truthy_str s T), Hex. reflexivity.
Qed.

(** X9.  A file of the folder from which nothing is extracted, or whose
    extracted identifier is falsy or excluded, has no effect on the scan:
    with or without it in the listing, the scanner gives the same result. *)
Theorem left_out_archive_has_no_effect fs l1 jar l2 :
  left_out fs jar = true ->
  scan_mod_folder fs (l1 ++ jar :: l2) = scan_mod_folder fs (l1 ++ l2).
Proof.
  intros H. unfold scan_mod_folder. rewrite !for_each_app.
  destruct (for_each l1 [] (scan_step fs)) as [m|]; [|reflexivity].
  cbn [bind for_each]. now rewrite (scan_step_left_out fs jar m H).
Qed.

Lemma left_out_archive_witness :
  scan_mod_folder sample_fs2 (["a.jar"] ++ "junk.jar" :: ["loader.jar"; "b.jar"])
  = scan_mod_folder sample_fs2 (["a.jar"] ++ ["loader.jar"; "b.jar"]).
Proof.
  apply (left_out_archive_has_no_effect sample_fs2). reflexivity.
Defined.

Lemma for_each_raise {A S} (l : list A) body e : forall (s : S),
  for_each l s body = Raise e ->
  exists s0 x, In x l /\ body s0 x = Raise e.
Proof.
  induction l as [|x l IH]; simpl; intros s H; [discriminate|].
  destruct (body s x) as [s1|e1] eqn:E; simpl in H.
  - destruct (IH _ H) as (s0 & y & Hy & Hb). exists s0, y. auto.
  - inversion H; subst. exists s, x. auto.
Qed.

Lemma should_ignore_raise v e :
  should_ignore v = Raise e -> e = AttributeError.
Proof.
  unfold should_ignore. destruct (truthy v); [|discriminate].
  destruct v; simpl; try discriminate; intros H; inversion H; reflexivity.
Qed.

Lemma filter_depends_raise deps e :
  keys_ok deps -> filter_depends deps = Raise e -> e = AttributeError.
Proof.
  intros Hk H. unfold filter_depends in H.
  destruct (for_each_raise _ _ _ _ H) as (acc & d & Hd & Hb).
  destruct (should_ignore d) as [ig|e'] eqn:Hig; simpl in Hb.
  - destruct (truthy ig); simpl in Hb; [discriminate|].
    unfold keys in Hd. apply in_map_iff in Hd.
    destruct Hd as ([d' m] & Heq & Hin). simpl in Heq; subst d'.
    rewrite (keys_ok_lookup deps d m Hk Hin) in Hb.
    unfold setitem in Hb.
    rewrite (proj2 Hk d) in Hb; [discriminate|].
    unfold keys. apply in_map_iff. exists (d, m); auto.
  - inversion Hb; subst. eapply should_ignore_raise; eauto.
Qed.

Lemma scan_step_raise fs mods jar e :
  scan_step fs mods jar = Raise e -> e = AttributeError.
Proof.
  unfold scan_step.
  destruct (extract_mod_metadata fs jar) as [info|] eqn:Hx; [|discriminate].
  destruct (truthy (id info)) eqn:T; [|discriminate].
  destruct (should_ignore (id info)) as [ig|e'] eqn:Hig; simpl.
  - destruct (truthy ig); simpl; [discriminate|].
    destruct (filter_depends (depends info)) as [deps|e'] eqn:Hf; simpl.
    + destruct (should_ignore_truthy _ _ T Hig) as (s & -> & _).
      discriminate.
    + intros H; inversion H; subst.
      eapply filter_depends_raise; eauto. eapply extract_keys_ok; eauto.
  - intros H; inversion H; subst. eapply should_ignore_raise; eauto.
Qed.

(** X10.  The only exception that leaves the scanner is the
    [AttributeError] of [.lower()] called on a truthy identifier that is
    not a string; when the identifier and the dependency keys extracted
    from every archive are strings or falsy, the scanner returns a
    registry. *)
Theorem scanner_raises_only_on_non_string_identifiers fs jars :
  (forall e, scan_mod_folder fs jars = Raise e -> e = AttributeError)
  /\ ((forall jar info, In jar jars ->
         extract_mod_metadata fs jar = Some info ->
         lowerable (id info) = true
         /\ forall k, In k (keys (depends info)) -> lowerable k = true) ->
      exists mods, scan_mod_folder fs jars = Ok mods).
Proof.
  split.
  - intros e H. unfold scan_mod_folder in H.
    destruct (for_each_raise _ _ _ _ H) as (m & jar & _ & Hb).
    eapply scan_step_raise; eauto.
  - intros Hw. unfold scan_mod_folder.
    destruct (for_each_returns (fun _ : dict descriptor => True) jars
                (scan_step fs)) with (s := ([] : dict descriptor))
      as (mods & E & _); [|exact I|eauto].
    intros m jar Hjar _. unfold scan_step.
    destruct (extract_mod_metadata fs jar) as [info|] eqn:Hx; [|eauto].
    destruct (Hw jar info Hjar Hx) as [Hid Hdeps].
    destruct (truthy (id info)) eqn:T; [|eauto].
    destruct (should_ignore_lowerable _ Hid) as (ig & -> & Hig).
    cbn [bind]. destruct (truthy ig); cbn [negb]; [eauto|].
    pose proof (extract_keys_ok _ _ _ Hx) as Hk.
    rewrite (filter_depends_eq (depends info)) by auto.
    cbn [bind]. unfold setitem.
    unfold lowerable in Hid. rewrite T in Hid. simpl in Hid.
    destruct (id info); try discriminate. simpl. eauto.
Qed.

Lemma scanner_raises_witness :
  exists mods, scan_mod_folder sample_fs ["a.jar"; "b.jar"] = Ok mods.
Proof.
  apply (proj2 (scanner_raises_only_on_non_string_identifiers
                  sample_fs ["a.jar"; "b.jar"])).
  intros jar info [<-|[<-|[]]] H; inversion H; subst; simpl;
    (split; [reflexivity|]);
    intros k Hk; repeat (destruct Hk as [<-|Hk]; [reflexivity|]);
    contradiction.
Defined.

(** ** Sufficient evidence for the Embedding Detector *)

Lemma zip_read_In jar name f :
  zip_read jar name = Ok f -> In name (namelist jar).
Proof.
  intros H. apply str_in_In. eapply zip_read_in; eauto.
Qed.

(** X11.  A nested archive under [META-INF/jars/] or [META-INF/jarjar/]
    whose name ends in [.jar], that can be read and from whose bytes a
    descriptor with a non-empty string identifier is extracted, makes the
    detector return true for every dependency identifier equal to that
    identifier up to letter case. *)
Theorem bundled_archive_is_detected fs jar_path jar name raw m t dep_id :
  ZipFile_path fs jar_path = Ok jar ->
  startswith name "META-INF/jars/" = true
  \/ startswith name "META-INF/jarjar/" = true ->
  endswith name ".jar" = true ->
  zip_read jar name = Ok raw ->
  extract_metadata_from_bytes raw = Some m ->
  id m = PStr t -> t <> "" -> lower t = lower dep_id ->
  is_dependency_embedded fs jar_path (PStr dep_id) = Ok true.
Proof.
  intros Hz Hp He Hr Hx Hid Hne Hl.
  rewrite is_dependency_embedded_eq, Hz. cbv zeta.
  assert (M : nested_match jar (lower dep_id) name = true).
  { unfold nested_match. rewrite Hr, Hx, Hid.
    apply String.eqb_neq in Hne. rewrite Hne, Hl, String.eqb_refl.
    reflexivity. }
  assert (N : nested_hit jar (lower dep_id) = true).
  { unfold nested_hit. cbn [existsb].
    assert (E : forall prefix,
               startswith name prefix = true ->
               existsb (fun name0 =>
                          startswith name0 prefix && endswith name0 ".jar"
                          && nested_match jar (lower dep_id) name0)
                       (namelist jar) = true).
    { intros prefix Hs. apply existsb_exists. exists name.
      split; [eapply zip_read_In; eauto|]. now rewrite Hs, He, M. }
    destruct Hp as [Hs|Hs]; rewrite (E _ Hs);
      rewrite ?orb_true_r; reflexivity. }
  now rewrite N.
Qed.

Lemma bundled_archive_witness :
  is_dependency_embedded (disk [("c.jar", sample_c)]) "c.jar" (PStr "LIBX")
  = Ok true.
Proof.
  apply (bundled_archive_is_detected (disk [("c.jar", sample_c)]) "c.jar"
           members_c "META-INF/jars/libx-1.0.jar" nested_libx
           {| id := PStr "LibX"; name := PStr "LibX"; depends := [];
              _path := None |} "LibX");
    try reflexivity.
  - left. reflexivity.
  - discriminate.
Defined.



Lemma jars_listed_exists entries dep :
  forallb readable_jar_entry entries = true ->
  (exists e t, In (PDict e) entries /\ jar_entry_id e = PStr t
               /\ contains dep (lower t) = true) ->
  jars_listed entries dep = true.
Proof.
  induction entries as [|entry entries IH]; simpl; intros Hr (e & t & Hin & Hid & Hc);
    [contradiction|].
  apply andb_true_iff in Hr. destruct Hr as [Hre Hr].
  destruct entry as [| | | | |e0]; try discriminate Hre.
  simpl in Hre. unfold jar_entry_id in Hre, Hid.
  destruct (match assoc "id" e0 with Some v => v | None => PStr "" end)
    as [| | |t0| |] eqn:E0; try discriminate Hre.
  destruct Hin as [Heq|Hin].
  - inversion Heq; subst e0. rewrite Hid in E0. inversion E0; subst t0.
    now rewrite Hc.
  - rewrite IH; [apply orb_true_r | exact Hr |].
    exists e, t. auto.
Qed.

(** X13.  The declared list of bundled archives is matched by substring:
    when the Schema A manifest of the archive decodes to an object whose
    ["jars"] field is a list of tables with string (or absent) identifiers,
    and the lower-cased dependency identifier occurs inside the lower-cased
    identifier of one of them, the detector returns true. *)
Theorem declared_bundle_matches_by_substring
  fs jar_path jar f data entries e t dep_id :
  ZipFile_path fs jar_path = Ok jar ->
  zip_read jar "fabric.mod.json" = Ok f ->
  as_json f = Some (PDict data) ->
  assoc "jars" data = Some (PList entries) ->
  forallb readable_jar_entry entries = true ->
  In (PDict e) entries ->
  jar_entry_id e = PStr t ->
  contains (lower dep_id) (lower t) = true ->
  is_dependency_embedded fs jar_path (PStr dep_id) = Ok true.
Proof.
  intros Hz Hr Hj Hjars Hread Hin Hid Hc.
  rewrite is_dependency_embedded_eq, Hz. cbv zeta.
  assert (jars_hit jar (lower dep_id) = true) as ->.
  { unfold jars_hit, manifest. cbn [manifest_path].
    rewrite (zip_read_in _ _ _ Hr), Hr, Hj, Hjars. cbn [andb].
    apply jars_listed_exists; [exact Hread|]. exists e, t. auto. }
  now rewrite !orb_true_r.
Qed.

Lemma declared_bundle_witness :
  is_dependency_embedded (disk [("g.jar", jar_file members_g)]) "g.jar"
    (PStr "API")
  = Ok true.
Proof.
  apply (declared_bundle_matches_by_substring
           (disk [("g.jar", jar_file members_g)]) "g.jar" members_g
           (json_file (PDict manifest_g)) manifest_g
           [PDict [("file", PStr "META-INF/jars/other.jar")];
            PDict [("id", PStr "Fabric-API-Base")]]
           [("id", PStr "Fabric-API-Base")] "Fabric-API-Base");
    try reflexivity.
  simpl. tauto.
Defined.

(** ** The shape of the graph *)

Lemma export_shape fs mods lines :
  export_to_dot fs mods = Ok lines ->
  exists st req opt,
    sets_ok st
    /\ out st = header ++ node_lines mods ++ expected_edges fs mods
    /\ py_sorted (missing_required_set st) = Ok req
    /\ py_sorted (missing_optional_set st) = Ok opt
    /\ lines = out st
               ++ map (fun dep => Placeholder dep missing_required) req
               ++ map (fun dep => Placeholder dep missing_optional) opt
               ++ [Fixed "}"]
    /\ placeholders missing_required lines = req
    /\ placeholders missing_optional lines = opt.
Proof.
  intros H.
  destruct (export_to_dot_ok _ _ _ H) as (st & req & opt & Hl & Hr & Ho & ->).
  pose proof (loops_sets_ok _ _ _ Hl) as Hs.
  exists st, req, opt. split; [exact Hs|].
  apply outer_loop_out in Hl.
  2:{ destruct mods; [now left | right; discriminate]. }
  cbn [out] in Hl. fold (node_lines mods) in Hl.
  destruct Hs as (_ & _ & _ & _ & _ & _ & P).
  split; [rewrite Hl; now rewrite <- app_assoc|].
  repeat split; auto.
  - rewrite !placeholders_app, P, placeholders_same.
    rewrite placeholders_other by reflexivity. cbn [placeholders app].
    now rewrite app_nil_r.
  - rewrite !placeholders_app, P, placeholders_same.
    rewrite placeholders_other by reflexivity. cbn [placeholders app].
    now rewrite app_nil_r.
Qed.

Lemma output_layout fs mods lines :
  export_to_dot fs mods = Ok lines ->
  lines = header ++ node_lines mods ++ expected_edges fs mods
          ++ map (fun dep => Placeholder dep missing_required)
                 (placeholders missing_required lines)
          ++ map (fun dep => Placeholder dep missing_optional)
                 (placeholders missing_optional lines)
          ++ [Fixed "}"].
Proof.
  intros H.
  destruct (export_shape _ _ _ H)
    as (st & req & opt & _ & Ho & _ & _ & Hl & Pr & Po).
  rewrite Pr, Po. rewrite Hl at 1. rewrite Ho.
  now rewrite <- !app_assoc.
Qed.

(** X14.  The output of the graph builder is, in this order: the three
    header lines, one node line per registry entry in registry order
    carrying its key and its name, the edge lines, the placeholder lines of
    the missing required dependencies, those of the missing optional ones,
    and the closing brace. *)
Theorem graph_layout fs mods lines :
  export_to_dot fs mods = Ok lines ->
  lines = header ++ node_lines mods ++ expected_edges fs mods
          ++ map (fun dep => Placeholder dep missing_required)
                 (placeholders missing_required lines)
          ++ map (fun dep => Placeholder dep missing_optional)
                 (placeholders missing_optional lines)
          ++ [Fixed "}"].
Proof.
  apply output_layout.
Qed.

Lemma graph_layout_witness :
  exists lines,
    export_to_dot sample_fs sample_mods = Ok lines
    /\ lines = header ++ node_lines sample_mods
               ++ expected_edges sample_fs sample_mods
               ++ map (fun dep => Placeholder dep missing_required)
                      (placeholders missing_required lines)
               ++ map (fun dep => Placeholder dep missing_optional)
                      (placeholders missing_optional lines)
               ++ [Fixed "}"].
Proof.
  eexists. split; [reflexivity|].
  apply (graph_layout sample_fs sample_mods). reflexivity.
Defined.

Lemma str_le_total a b : str_le a b = false -> str_le b a = true.
Proof.
  destruct a, b; simpl; try discriminate; try reflexivity.
  intros H. destruct (String.leb_total s s0) as [E|E]; congruence.
Qed.

Lemma ascending_cons a l :
  ascending (a :: l)
  = match l with [] => true | b :: _ => str_le a b end && ascending l.
Proof. destruct l; reflexivity. Qed.

Lemma insert_by_head x y l :
  match l with [] => true | b :: _ => str_le y b end = true ->
  str_le y x = true ->
  match insert_by str_le x l with [] => true | b :: _ => str_le y b end
  = true.
Proof.
  destruct l as [|z l]; cbn [insert_by]; intros Hz Hx; [exact Hx|].
  destruct (str_le x z); assumption.
Qed.

Lemma insert_by_ascending x l :
  ascending l = true -> ascending (insert_by str_le x l) = true.
Proof.
  induction l as [|y l IH]; intros Hl; [reflexivity|].
  cbn [insert_by]. destruct (str_le x y) eqn:E.
  - rewrite ascending_cons, E. exact Hl.
  - apply str_le_total in E.
    rewrite ascending_cons in Hl. apply andb_true_iff in Hl.
    destruct Hl as [Hh Hl].
    rewrite ascending_cons, (insert_by_head x y l Hh E), (IH Hl).
    reflexivity.
Qed.

Lemma sort_by_ascending l : ascending (sort_by str_le l) = true.
Proof.
  induction l as [|x l IH]; [reflexivity|].
  cbn [sort_by fold_right]. now apply insert_by_ascending.
Qed.

Lemma py_sorted_ascending s l :
  (forall x, In x s -> is_str x = true) ->
  py_sorted s = Ok l -> ascending l = true.
Proof.
  intros Hs. unfold py_sorted.
  destruct (List.length s <=? 1)%nat eqn:E.
  - intros H; inversion H; subst.
    destruct l as [|a [|b l]]; try reflexivity. discriminate E.
  - assert (forallb is_str s = true) as -> by now apply forallb_forall.
    intros H; inversion H; subst. apply sort_by_ascending.
Qed.

Lemma one_kind_empty fs mods lines :
  export_to_dot fs mods = Ok lines ->
  placeholders satisfied lines = [].
Proof.
  intros H.
  destruct (export_shape _ _ _ H)
    as (st & req & opt & Hs & _ & _ & _ & -> & _ & _).
  destruct Hs as (_ & _ & _ & _ & _ & _ & P).
  rewrite !placeholders_app, P.
  rewrite !placeholders_other by reflexivity. reflexivity.
Qed.

(** X15.  The placeholder lines of each kind are emitted in ascending
    order of their identifiers, which are all strings. *)
Theorem placeholders_are_sorted fs mods lines kind :
  export_to_dot fs mods = Ok lines ->
  ascending (placeholders kind lines) = true
  /\ forall dep, In dep (placeholders kind lines) -> is_str dep = true.
Proof.
  intros H.
  destruct (export_shape _ _ _ H)
    as (st & req & opt & Hs & _ & Hr & Ho & _ & Pr & Po).
  destruct Hs as (_ & _ & _ & _ & S1 & S2 & _).
  destruct kind.
  - rewrite (one_kind_empty fs mods lines H).
    split; [reflexivity | intros dep []].
  - rewrite Pr. split; [exact (py_sorted_ascending _ _ S1 Hr)|].
    intros dep Hin. apply S1.
    apply (Permutation_in dep (Permutation_sym (py_sorted_perm _ _ Hr)) Hin).
  - rewrite Po. split; [exact (py_sorted_ascending _ _ S2 Ho)|].
    intros dep Hin. apply S2.
    apply (Permutation_in dep (Permutation_sym (py_sorted_perm _ _ Ho)) Hin).
Qed.

Lemma placeholders_are_sorted_witness :
  exists lines,
    export_to_dot sample_fs sample_mods = Ok lines
    /\ ascending (placeholders missing_required lines) = true
    /\ forall dep, In dep (placeholders missing_required lines) ->
                   is_str dep = true.
Proof.
  eexists. split; [reflexivity|].
  apply (placeholders_are_sorted sample_fs sample_mods). reflexivity.
Defined.

(** ** Edges, nodes and placeholders *)

Lemma edge_in_lines fs mods lines mod_id dep kind :
  export_to_dot fs mods = Ok lines ->
  In (Edge mod_id dep kind) lines ->
  exists d m,
    In (mod_id, d) mods /\ In (dep, m) (depends d)
    /\ kind = edge_status fs mods (dep, m).
Proof.
  intros H Hin.
  destruct (export_shape _ _ _ H)
    as (st & req & opt & _ & Ho & _ & _ & -> & _ & _).
  rewrite Ho in Hin. rewrite !in_app_iff in Hin.
  destruct Hin as [[Hin|[Hin|Hin]]|[Hin|[Hin|Hin]]].
  - simpl in Hin. intuition discriminate.
  - unfold node_lines in Hin. apply in_map_iff in Hin.
    destruct Hin as (x & Hx & _). discriminate.
  - unfold expected_edges in Hin. apply in_flat_map in Hin.
    destruct Hin as ([k d] & Hkd & Hin). apply in_map_iff in Hin.
    destruct Hin as ([dep' m] & Heq & Hitem). cbn [fst snd] in *.
    inversion Heq; subst. exists d, m. auto.
  - apply in_map_iff in Hin. destruct Hin as (x & Hx & _). discriminate.
  - apply in_map_iff in Hin. destruct Hin as (x & Hx & _). discriminate.
  - destruct Hin as [Hin|[]]. discriminate.
Qed.

Lemma edge_status_present fs mods dep m :
  edge_status fs mods (dep, m) = satisfied <-> present fs mods dep = true.
Proof.
  unfold edge_status, present. cbn [fst snd].
  destruct (py_in dep (keys mods) || existsb _ _);
    [tauto|].
  destruct (truthy (required m)); split; discriminate.
Qed.

(** X16.  Whether an edge is satisfied depends on its target alone: two
    edges of the output that point to the same dependency, from whatever
    mods, are both satisfied or both missing. *)
Theorem edges_to_one_dependency_agree
  fs mods lines mod1 mod2 dep kind1 kind2 :
  export_to_dot fs mods = Ok lines ->
  In (Edge mod1 dep kind1) lines ->
  In (Edge mod2 dep kind2) lines ->
  (kind1 = satisfied <-> kind2 = satisfied).
Proof.
  intros H H1 H2.
  destruct (edge_in_lines _ _ _ _ _ _ H H1) as (d1 & m1 & _ & _ & ->).
  destruct (edge_in_lines _ _ _ _ _ _ H H2) as (d2 & m2 & _ & _ & ->).
  now rewrite !edge_status_present.
Qed.

Lemma edges_agree_witness :
  missing_required = satisfied <-> missing_optional = satisfied.
Proof.
  apply (edges_to_one_dependency_agree sample_fs sample_mods
           (header ++ node_lines sample_mods
            ++ [Edge (PStr "a") (PStr "x") missing_required;
                Edge (PStr "b") (PStr "x") missing_optional;
                Placeholder (PStr "x") missing_required;
                Placeholder (PStr "x") missing_optional;
                Fixed "}"])
           (PStr "a") (PStr "b") (PStr "x")).
  - reflexivity.
  - simpl. tauto.
  - simpl. tauto.
Defined.

Lemma placeholder_has_edge fs mods lines kind dep :
  export_to_dot fs mods = Ok lines ->
  In dep (placeholders kind lines) ->
  is_str dep = true
  /\ kind <> satisfied
  /\ exists mod_id, In (Edge mod_id dep kind) lines.
Proof.
  intros H Hin.
  destruct (export_shape _ _ _ H)
    as (st & req & opt & Hs & _ & Hr & Ho & Hl & Pr & Po).
  destruct Hs as (_ & _ & R & O & S1 & S2 & _).
  assert (E : forall mod_id k, In (Edge mod_id dep k) (out st) ->
                               In (Edge mod_id dep k) lines).
  { intros. rewrite Hl. apply in_app_iff. now left. }
  destruct kind.
  - rewrite (one_kind_empty _ _ _ H) in Hin. contradiction.
  - rewrite Pr in Hin.
    apply (Permutation_in dep (Permutation_sym (py_sorted_perm _ _ Hr)))
      in Hin.
    split; [now apply S1|]. split; [discriminate|].
    apply R in Hin. destruct Hin as (x & Hx). exists x. now apply E.
  - rewrite Po in Hin.
    apply (Permutation_in dep (Permutation_sym (py_sorted_perm _ _ Ho)))
      in Hin.
    split; [now apply S2|]. split; [discriminate|].
    apply O in Hin. destruct Hin as (x & Hx). exists x. now apply E.
Qed.

Lemma node_in_lines fs mods lines k nm :
  export_to_dot fs mods = Ok lines ->
  In (ModNode k nm) lines ->
  exists d, In (k, d) mods /\ nm = name d.
Proof.
  intros H Hin.
  destruct (export_shape _ _ _ H)
    as (st & req & opt & _ & Ho & _ & _ & -> & _ & _).
  rewrite Ho in Hin. rewrite !in_app_iff in Hin.
  destruct Hin as [[Hin|[Hin|Hin]]|[Hin|[Hin|Hin]]].
  - simpl in Hin. intuition discriminate.
  - unfold node_lines in Hin. apply in_map_iff in Hin.
    destruct Hin as ([k' d] & Hx & Hkd). cbn [fst snd] in Hx.
    inversion Hx; subst. exists d. auto.
  - unfold expected_edges in Hin. apply in_flat_map in Hin.
    destruct Hin as (kd & _ & Hin). apply in_map_iff in Hin.
    destruct Hin as (x & Hx & _). discriminate.
  - apply in_map_iff in Hin. destruct Hin as (x & Hx & _). discriminate.
  - apply in_map_iff in Hin. destruct Hin as (x & Hx & _). discriminate.
  - destruct Hin as [Hin|[]]. discriminate.
Qed.

(** X17.  A placeholder is declared only for an identifier that is not a
    key of the registry: no identifier is declared both as the node of an
    installed mod and as a placeholder. *)
Theorem placeholder_is_not_an_installed_mod fs mods lines kind dep :
  export_to_dot fs mods = Ok lines ->
  In dep (placeholders kind lines) ->
  py_in dep (keys mods) = false
  /\ forall nm, ~ In (ModNode dep nm) lines.
Proof.
  intros H Hin.
  destruct (placeholder_has_edge _ _ _ _ _ H Hin) as (Hs & Hk & x & Hx).
  destruct (edge_in_lines _ _ _ _ _ _ H Hx) as (d & m & _ & _ & Est).
  assert (P : present fs mods dep = false).
  { destruct (present fs mods dep) eqn:E; [|reflexivity].
    apply (edge_status_present fs mods dep m) in E. congruence. }
  unfold present in P. apply orb_false_iff in P. destruct P as [P _].
  split; [exact P|].
  intros nm Hn. destruct (node_in_lines _ _ _ _ _ H Hn) as (d' & Hd' & _).
  rewrite (py_in_of_In dep (keys mods) Hs) in P; [discriminate|].
  unfold keys. apply in_map_iff. exists (dep, d'). auto.
Qed.

Lemma placeholder_not_installed_witness :
  py_in (PStr "x") (keys sample_mods) = false
  /\ forall nm,
       ~ In (ModNode (PStr "x") nm)
           (header ++ node_lines sample_mods
            ++ [Edge (PStr "a") (PStr "x") missing_required;
                Edge (PStr "b") (PStr "x") missing_optional;
                Placeholder (PStr "x") missing_required;
                Placeholder (PStr "x") missing_optional;
                Fixed "}"]).
Proof.
  apply (placeholder_is_not_an_installed_mod sample_fs sample_mods _
           missing_optional).
  - reflexivity.
  - simpl. tauto.
Defined.

(** X18.  Every edge of the output starts at an installed mod: its source
    is a key of the registry and has a node line, carrying the name of the
    registered descriptor. *)
Theorem edge_source_is_a_declared_node fs mods lines mod_id dep kind :
  export_to_dot fs mods = Ok lines ->
  In (Edge mod_id dep kind) lines ->
  exists d, In (mod_id, d) mods /\ In (ModNode mod_id (name d)) lines.
Proof.
  intros H Hin.
  destruct (edge_in_lines _ _ _ _ _ _ H Hin) as (d & m & Hd & _ & _).
  exists d. split; [exact Hd|].
  rewrite (output_layout fs mods lines H).
  apply in_app_iff. right. apply in_app_iff. left.
  unfold node_lines. apply in_map_iff. exists (mod_id, d). auto.
Qed.

Lemma edge_source_witness :
  exists d,
    In (PStr "b", d) sample_mods
    /\ In (ModNode (PStr "b") (name d))
          (header ++ node_lines sample_mods
           ++ [Edge (PStr "a") (PStr "x") missing_required;
               Edge (PStr "b") (PStr "x") missing_optional;
               Placeholder (PStr "x") missing_required;
               Placeholder (PStr "x") missing_optional;
               Fixed "}"]).
Proof.
  apply (edge_source_is_a_declared_node sample_fs sample_mods _ (PStr "b")
           (PStr "x") missing_optional).
  - reflexivity.
  - simpl. tauto.
Defined.

(** ** When the graph builder returns *)






(** ** The pipeline *)

Lemma scan_registered fs jars mods :
  scan_mod_folder fs jars = Ok mods ->
  forall kd, In kd mods -> registered kd.
Proof.
  unfold scan_mod_folder.
  apply (for_each_inv (fun m => forall kd, In kd m -> registered kd)).
  - intros m jar m' _ Hm Hstep. eapply scan_step_registered; eauto.
  - intros kd [].
Qed.

Lemma block_name s jar p d :
  block s jar p = Ok (Return (Some d)) ->
  exists nm, name d = py_or nm (id d).
Proof.
  destruct s; simpl; intros H.
  - unfold fabric_block in H. bind_inv H. inversion H; subst; simpl. eauto.
  - unfold forge_block in H. bind_inv H; [discriminate H|].
    bind_inv H. inversion H; subst; simpl. eauto.
  - unfold mcmod_block in H. bind_inv H.
    destruct a0 as [| | | |[|entry l]|]; try discriminate H.
    bind_inv H. inversion H; subst; simpl. eauto.
Qed.

Lemma extract_name_truthy fs jar_path d :
  extract_mod_metadata fs jar_path = Some d ->
  truthy (id d) = true -> truthy (name d) = true.
Proof.
  intros H T. destruct (extract_from_block _ _ _ H) as (jar & s & _ & _ & Hb).
  destruct (block_name _ _ _ _ Hb) as (nm & ->).
  unfold py_or. destruct (truthy nm) eqn:E; assumption.
Qed.

Lemma scan_names_truthy fs jars mods :
  scan_mod_folder fs jars = Ok mods ->
  forall kd, In kd mods -> truthy (name (snd kd)) = true.
Proof.
  unfold scan_mod_folder.
  apply (for_each_inv
           (fun m : dict descriptor =>
              forall kd, In kd m -> truthy (name (snd kd)) = true)).
  - intros m jar m' _ Hm Hstep.
    destruct (scan_step_cases _ _ _ _ Hstep)
      as [->|(info & s & deps & Hx & Hid & Hne & Hex & Hf & ->)];
      [exact Hm|].
    intros [k d] Hin.
    destruct (dict_set_In _ _ _ _ _ Hin) as [Hold|[-> _]];
      [now apply (Hm (k, d))|].
    cbn [snd name].
    apply (extract_name_truthy _ _ _ Hx). rewrite Hid. simpl.
    now apply negb_true_iff, String.eqb_neq.
  - intros kd [].
Qed.

(** X20.  In the output of the whole program, scan followed by graph
    construction, no excluded identifier occurs: every node is a string
    identifier outside the exclusion set with a truthy name, every edge
    starts at such an identifier and ends at an identifier outside the
    exclusion set, and so does every placeholder. *)
Theorem program_output_is_clean fs jars lines :
  main fs jars = Ok lines ->
  forall l, In l lines -> clean_line l = true.
Proof.
  unfold main. intros H.
  destruct (scan_mod_folder fs jars) as [mods|] eqn:Hs; cbn [bind] in H;
    [|discriminate].
  pose proof (scan_registered _ _ _ Hs) as R.
  pose proof (scan_names_truthy _ _ _ Hs) as N.
  assert (K : forall k d, In (k, d) mods ->
                is_str k = true /\ excluded k = false).
  { intros k d Hin. destruct (R _ Hin) as ((s & Hk & _) & Hex & _).
    cbn [fst] in *. subst k. auto. }
  assert (E : forall mod_id dep kind, In (Edge mod_id dep kind) lines ->
                is_str mod_id = true /\ excluded mod_id = false
                /\ excluded dep = false).
  { intros mod_id dep kind Hin.
    destruct (edge_in_lines _ _ _ _ _ _ H Hin) as (d & m & Hd & Hdep & _).
    destruct (K _ _ Hd) as [A B]. repeat split; auto.
    destruct (R _ Hd) as (_ & _ & _ & Hdeps). cbn [snd] in Hdeps.
    apply Hdeps. unfold keys. apply in_map_iff. exists (dep, m). auto. }
  intros [text|k nm|mod_id dep kind|dep kind] Hin; cbn [clean_line].
  - reflexivity.
  - destruct (node_in_lines _ _ _ _ _ H Hin) as (d & Hd & ->).
    destruct (K _ _ Hd) as [-> ->].
    pose proof (N _ Hd) as Hn. cbn [snd] in Hn. now rewrite Hn.
  - destruct (E _ _ _ Hin) as (-> & -> & ->). reflexivity.
  - assert (Hp : In dep (placeholders kind lines)).
    { clear -Hin. induction lines as [|x lines IH]; [contradiction|].
      destruct Hin as [->|Hin].
      - cbn [placeholders].
        assert (status_eqb kind kind = true) as -> by now destruct kind.
        now left.
      - specialize (IH Hin). cbn [placeholders].
        destruct x; auto. destruct (status_eqb kind0 kind); [now right|auto]. }
    destruct (placeholder_has_edge _ _ _ _ _ H Hp) as (_ & _ & x & Hx).
    destruct (E _ _ _ Hx) as (_ & _ & ->). reflexivity.
Qed.

Lemma program_output_witness :
  clean_line (Edge (PStr "b") (PStr "x") missing_optional) = true.
Proof.
  apply (program_output_is_clean sample_fs ["a.jar"; "b.jar"]
           (header ++ node_lines sample_mods
            ++ [Edge (PStr "a") (PStr "x") missing_required;
                Edge (PStr "b") (PStr "x") missing_optional;
                Placeholder (PStr "x") missing_required;
                Placeholder (PStr "x") missing_optional;
                Fixed "}"])).
  - reflexivity.
  - simpl. tauto.
Defined.

(** The program on a manifest whose dependency table has no [modId]: the
    key [None] passes the filter, and the graph builder raises when it
    probes it. *)
Example dependency_without_identifier_stops_the_program :
  scan_mod_folder (disk [("n.jar", sample_n)]) ["n.jar"]
  = Ok [(PStr "n",
         {| id := PStr "n"; name := PStr "n";
            depends := [(PNone, {| required := PBool true |})];
            _path := Some "n.jar" |})]
  /\ main (disk [("n.jar", sample_n)]) ["n.jar"] = Raise AttributeError.
Proof. split; reflexivity. Qed.

(** ** What the extractor and the detector do not look at *)

Lemma from_bytes_blocks_ext jar1 jar2 :
  (forall s, zip_read jar1 (manifest_path s) = zip_read jar2 (manifest_path s)) ->
  fabric_from_bytes jar1 = fabric_from_bytes jar2
  /\ forge_from_bytes jar1 = forge_from_bytes jar2
  /\ mcmod_from_bytes jar1 = mcmod_from_bytes jar2.
Proof.
  intros H.
  pose proof (H SchemaA) as HA. pose proof (H SchemaB) as HB.
  pose proof (H SchemaC) as HC. cbn [manifest_path] in HA, HB, HC.
  unfold fabric_from_bytes, forge_from_bytes, mcmod_from_bytes.
  now rewrite HA, HB, HC.
Qed.

(** X21.  The extractor looks at nothing in an archive but the three
    manifests: two archives that have the same manifests among their
    members, with the same contents, yield the same extraction, whatever
    their other members, nested archives included. *)
Theorem extraction_reads_only_the_manifests raw1 raw2 jar1 jar2 :
  as_zip raw1 = Some jar1 ->
  as_zip raw2 = Some jar2 ->
  (forall s, str_in (manifest_path s) (namelist jar1)
             = str_in (manifest_path s) (namelist jar2)) ->
  (forall s, zip_read jar1 (manifest_path s)
             = zip_read jar2 (manifest_path s)) ->
  extract_metadata_from_bytes raw1 = extract_metadata_from_bytes raw2.
Proof.
  intros H1 H2 Hn Hr.
  unfold extract_metadata_from_bytes, ZipFile_bytes. rewrite H1, H2.
  destruct (from_bytes_blocks_ext jar1 jar2 Hr) as (-> & -> & ->).
  pose proof (Hn SchemaA) as HA. pose proof (Hn SchemaB) as HB.
  pose proof (Hn SchemaC) as HC. cbn [manifest_path] in HA, HB, HC.
  now rewrite HA, HB, HC.
Qed.

Lemma extraction_reads_only_witness :
  extract_metadata_from_bytes sample_c
  = extract_metadata_from_bytes
      (jar_file [("fabric.mod.json", Some (json_file (PDict manifest_c)))]).
Proof.
  apply (extraction_reads_only_the_manifests sample_c _ members_c
           [("fabric.mod.json", Some (json_file (PDict manifest_c)))]);
    try reflexivity;
    intros s; destruct s; reflexivity.
Defined.

Lemma getinfo_snoc_other n name c jar :
  n <> name -> getinfo n (jar ++ [(name, c)]) = getinfo n jar.
Proof.
  intros Hn. induction jar as [|[m c0] jar IH]; simpl.
  - destruct (String.eqb_spec name n); [congruence | reflexivity].
  - now rewrite IH.
Qed.

Lemma existsb_app_l {A} (f : A -> bool) l1 l2 :
  existsb f l1 = true -> existsb f (l1 ++ l2) = true.
Proof.
  intros H. rewrite existsb_app, H. reflexivity.
Qed.

Lemma existsb_mono {A} (f g : A -> bool) l :
  (forall x, In x l -> f x = true -> g x = true) ->
  existsb f l = true -> existsb g l = true.
Proof.
  intros H E. apply existsb_exists in E. destruct E as (x & Hx & Fx).
  apply existsb_exists. exists x. auto.
Qed.

(** X22.  Adding a member under a name that the archive does not have yet
    never hides an embedded dependency: whenever the detector returns true
    for an archive, it returns true for the archive with the added
    member. *)
Theorem added_member_keeps_dependency_embedded
  fs fs' jar_path jar name content dep_id :
  ZipFile_path fs jar_path = Ok jar ->
  ZipFile_path fs' jar_path = Ok (jar ++ [(name, content)]) ->
  str_in name (namelist jar) = false ->
  is_dependency_embedded fs jar_path (PStr dep_id) = Ok true ->
  is_dependency_embedded fs' jar_path (PStr dep_id) = Ok true.
Proof.
  intros Hz Hz' Hfresh. rewrite !is_dependency_embedded_eq, Hz, Hz'.
  cbv zeta. set (dep := lower dep_id). intros H.
  injection H as H'. f_equal.
  assert (Hother : forall n, In n (namelist jar) -> n <> name).
  { intros n Hin ->. apply str_in_In in Hin. congruence. }
  assert (Hread : forall n, In n (namelist jar) ->
                    zip_read (jar ++ [(name, content)]) n = zip_read jar n).
  { intros n Hin. unfold zip_read.
    now rewrite getinfo_snoc_other by (apply Hother; exact Hin). }
  assert (Hnames : namelist (jar ++ [(name, content)])
                   = namelist jar ++ [name]).
  { unfold namelist. now rewrite map_app. }
  apply orb_true_iff in H'. destruct H' as [H'|H'].
  apply orb_true_iff in H'. destruct H' as [H'|H'].
  apply orb_true_iff in H'. destruct H' as [H'|H'].
  - assert (nested_hit (jar ++ [(name, content)]) dep = true) as ->;
      [|reflexivity].
    unfold nested_hit in *. rewrite Hnames.
    revert H'. apply existsb_mono. intros prefix _ E.
    apply existsb_app_l. revert E. apply existsb_mono.
    intros n Hin E. unfold nested_match in *.
    now rewrite (Hread n Hin).
  - assert (namespace_hit (jar ++ [(name, content)]) dep = true) as ->;
      [|now rewrite orb_true_r].
    unfold namespace_hit in *. rewrite Hnames.
    revert H'. apply existsb_mono. intros ns _ E. now apply existsb_app_l.
  - assert (class_hit (jar ++ [(name, content)]) dep = true) as ->;
      [|now rewrite !orb_true_r].
    unfold class_hit in *. rewrite Hnames. now apply existsb_app_l.
  - assert (jars_hit (jar ++ [(name, content)]) dep = true) as ->;
      [|now rewrite !orb_true_r].
    unfold jars_hit in *. apply andb_true_iff in H'. destruct H' as [Hin Hm].
    rewrite Hnames. unfold str_in at 1. rewrite existsb_app.
    fold (str_in "fabric.mod.json" (namelist jar)). rewrite Hin. cbn [orb andb].
    unfold manifest in *. cbn [manifest_path] in *.
    rewrite Hread; [exact Hm|]. now apply str_in_In.
Qed.

Lemma added_member_witness :
  is_dependency_embedded
    (disk [("c.jar", jar_file (members_c ++ [("LICENSE", None)]))])
    "c.jar" (PStr "libX")
  = Ok true.
Proof.
  apply (added_member_keeps_dependency_embedded
           (disk [("c.jar", sample_c)]) _ "c.jar" members_c "LICENSE" None);
    reflexivity.
Defined.
